(** * PyPlugInMgr: the plugin manager of [PluginMgr/__init__.py]

    A shallow embedding of class [PlugInMgr]: the discovery loop
    [findcandidate_files], the loader [get_installed_config] and the query
    methods [get_plugin], [has] and [get], followed by the properties of the
    specification that concern them.

    Python strings are [string]; the catalog, a [dict] keyed by strings, is a
    [gmap string entry]; an exception is a value of [exn] and a call that may
    raise returns a [result].  Everything the code obtains from the
    interpreter and the file system (the directory listing, [Path.exists],
    importlib and [inspect]) is read from a [world]. *)

From Stdlib Require Import ZArith Ascii String List Lia.
From stdpp Require Import base tactics option list gmap strings.

Local Open Scope Z_scope.
Local Open Scope list_scope.

(** ** Python strings *)

Module Str.

Fixpoint len (s : string) : Z :=
  match s with
  | EmptyString => 0
  | String _ s' => 1 + len s'
  end.

(** [s[:i]] and [s[i:]] for an index [i] that is not negative. *)
Fixpoint take (n : nat) (s : string) : string :=
  match n, s with
  | S n', String a s' => String a (take n' s')
  | _, _ => EmptyString
  end.

Fixpoint drop (n : nat) (s : string) : string :=
  match n, s with
  | S n', String _ s' => drop n' s'
  | _, _ => s
  end.

Definition slice_to (i : Z) (s : string) : string := take (Z.to_nat i) s.
Definition slice_from (i : Z) (s : string) : string := drop (Z.to_nat i) s.

(** [s.rfind(c)]: the highest index of [c] in [s], or [-1]. *)
Fixpoint rfind_from (c : ascii) (s : string) (i found : Z) : Z :=
  match s with
  | EmptyString => found
  | String a s' => rfind_from c s' (i + 1) (if decide (a = c) then i else found)
  end.

Definition rfind (c : ascii) (s : string) : Z := rfind_from c s 0 (-1).

(** [c in s] for a character, and the characters of [s] that satisfy [f]. *)
Fixpoint mem (c : ascii) (s : string) : bool :=
  match s with
  | EmptyString => false
  | String a s' => bool_decide (a = c) || mem c s'
  end.

Fixpoint any (f : ascii -> bool) (s : string) : bool :=
  match s with
  | EmptyString => false
  | String a s' => f a || any f s'
  end.

(** [s.startswith(p)], [s.endswith(p)] and [p in s]. *)
Fixpoint startswith (p s : string) : bool :=
  match p, s with
  | EmptyString, _ => true
  | String a p', String b s' => bool_decide (a = b) && startswith p' s'
  | String _ _, EmptyString => false
  end.

Fixpoint contains (p s : string) : bool :=
  startswith p s ||
  match s with
  | EmptyString => false
  | String _ s' => contains p s'
  end.

Fixpoint endswith (p s : string) : bool :=
  bool_decide (s = p) ||
  match s with
  | EmptyString => false
  | String _ s' => endswith p s'
  end.

End Str.

(** ** The path functions of [posixpath], [fnmatch] and [pathlib] that the
    code calls *)

Definition sep : ascii := "/"%char.
Definition extsep : ascii := "."%char.

(** [dir / name] followed by [str]: an absolute [name] replaces [dir], and the
    root directory brings its own separator.  Entry names are plain, so the
    normalisation pathlib applies to [.] and to repeated separators never
    comes into play. *)
Definition joinpath (dir name : string) : string :=
  if Str.startswith "/" name then name
  else if bool_decide (dir = "/") then dir +:+ name
  else dir +:+ "/" +:+ name.

(** [os.path.split(p)[1]]: what follows the last separator. *)
Definition os_path_split_tail (p : string) : string :=
  let i := Str.rfind sep p + 1 in
  Str.slice_from i p.

(** Some character of [s] is not a dot. *)
Definition has_stem (s : string) : bool :=
  Str.any (fun a => negb (bool_decide (a = extsep))) s.

(** [os.path.splitext(p)]: the split is at the last dot, unless that dot is
    not after the last separator or only dots lie between the separator and
    it (the loop of [genericpath._splitext] that skips leading dots). *)
Definition splitext (p : string) : string * string :=
  let sepIndex := Str.rfind sep p in
  let dotIndex := Str.rfind extsep p in
  if (sepIndex <? dotIndex)
     && has_stem (Str.slice_to (dotIndex - (sepIndex + 1))
                               (Str.slice_from (sepIndex + 1) p))
  then (Str.slice_to dotIndex p, Str.slice_from dotIndex p)
  else (p, EmptyString).

(** [fnmatch] on one name: [*] matches any run of characters, [?] any one
    character, every other character itself.  Character classes ([[...]])
    are not modelled; the statements below that depend on matching are about
    patterns without [[]. *)
Fixpoint fnmatch (pat name : string) : bool :=
  match pat with
  | EmptyString => bool_decide (name = EmptyString)
  | String c pat' =>
      if bool_decide (c = "*"%char) then
        (fix star (n : string) : bool :=
           fnmatch pat' n ||
           match n with
           | EmptyString => false
           | String _ n' => star n'
           end) name
      else
        match name with
        | EmptyString => false
        | String a name' =>
            (bool_decide (c = "?"%char) || bool_decide (a = c))
            && fnmatch pat' name'
        end
  end.

(** An extension that [glob] reads literally: no wildcard, no class, no
    separator. *)
Definition literal_ext (ext : string) : bool :=
  negb (Str.any (fun a => bool_decide (a = "*"%char) || bool_decide (a = "?"%char)
                          || bool_decide (a = "["%char) || bool_decide (a = sep))
                ext).

(** ** Exceptions and results *)

Inductive exn_class :=
| FileNotFoundError
| ImportError
| AttributeError
| KeyError
| OtherError (name : string).

Record exn := Exn { exn_cls : exn_class; exn_msg : string }.

Inductive result (A : Type) :=
| Ok (a : A)
| Raise (e : exn).
Arguments Ok {A} a.
Arguments Raise {A} e.

(** Sequencing: a raise in the first call skips the rest. *)
Global Instance result_bind : MBind result := fun A B k r =>
  match r with
  | Ok a => k a
  | Raise e => Raise e
  end.

Global Instance exn_class_eq_dec : EqDecision exn_class.
Proof. solve_decision. Defined.
Global Instance exn_eq_dec : EqDecision exn.
Proof. solve_decision. Defined.

(** ** Values, modules and the world *)

(** A module object is known to the manager by the name and the location it
    was loaded under. *)
Record module := Module_ { mod_name : string; mod_file : string }.

(** Python values: the ones the examples need, and [PyOpaque] for any other
    object (a function, a class, a loader), named by its [repr]. *)
Inductive pyobj :=
| PyNone
| PyBool (b : bool)
| PyInt (z : Z)
| PyStr (s : string)
| PyOpaque (repr : string).

Record ModuleSpec := { spec_name : string; spec_origin : string }.

(** What one discovery call observes of its environment.  [os_scandir d] is
    the names in directory [d] in the order the system lists them (none when
    [d] is missing); [has_loader] says whether importlib has a file loader
    for a location; [run_toplevel] is the outcome of executing the file of a
    module; [getmembers] is introspection of a module. *)
Record world := {
  os_scandir : string -> list string;
  path_exists : string -> bool;
  has_loader : string -> bool;
  run_toplevel : module -> result unit;
  getmembers : module -> result (list (string * pyobj))
}.

(** ** The manager *)

(** A catalog entry, the two-element list [[module, dict(...)]]. *)
Record entry := Entry { handle : module; attributes : gmap string pyobj }.

Record PlugInMgr := {
  plugin_dir : string;
  candidate_files : list string;
  plug_ext : string;
  catalog : gmap string entry
}.

(** The manager together with the interpreter state discovery touches:
    [sys.path], and the files handed to the loader so far. *)
Record process := {
  self : PlugInMgr;
  sys_path : list string;
  loads : list string
}.

(** The constructor.  [plugin_dir] is taken as a path without [.] segments,
    which pathlib would drop when it joins it to [cwd]; the creation of a
    missing directory under [allow_creation] acts on the file system only
    and leaves the manager it builds the same. *)
Definition __init__ (cwd plugin_dir plug_ext : string) : PlugInMgr :=
  {| plugin_dir := joinpath cwd plugin_dir;
     candidate_files := [];
     plug_ext := plug_ext;
     catalog := ∅ |}.

Definition set_candidate_files (l : list string) (m : PlugInMgr) : PlugInMgr :=
  {| plugin_dir := plugin_dir m; candidate_files := l;
     plug_ext := plug_ext m; catalog := catalog m |}.

Definition set_catalog (c : gmap string entry) (m : PlugInMgr) : PlugInMgr :=
  {| plugin_dir := plugin_dir m; candidate_files := candidate_files m;
     plug_ext := plug_ext m; catalog := c |}.

(** Item assignments [d[k] = v] done in sequence. *)
Definition update_all {V : Type} (kvs : list (string * V)) (d : gmap string V)
  : gmap string V :=
  fold_left (fun d kv => <[kv.1 := kv.2]> d) kvs d.

(** [dict(pairs)]: a later pair replaces an earlier one with the same key. *)
Definition dict (pairs : list (string * pyobj)) : gmap string pyobj :=
  update_all pairs ∅.

(** [Path.glob(pattern)] on a directory, for a one-segment pattern. *)
Definition glob (w : world) (dir pattern : string) : list string :=
  map (joinpath dir) (List.filter (fnmatch pattern) (os_scandir w dir)).

Definition spec_from_file_location (w : world) (name location : string)
  : option ModuleSpec :=
  if has_loader w location
  then Some {| spec_name := name; spec_origin := location |}
  else None.

Definition module_from_spec (spec : option ModuleSpec) : result module :=
  match spec with
  | Some s => Ok {| mod_name := spec_name s; mod_file := spec_origin s |}
  | None =>
      Raise (Exn AttributeError "'NoneType' object has no attribute 'loader'")
  end.

Definition get_installed_config (w : world) (m : PlugInMgr) (config_file : string)
  : result module :=
  let config_path := joinpath (plugin_dir m) config_file in
  if negb (path_exists w config_path) then
    Raise (Exn FileNotFoundError ("No file found at location " +:+ config_path))
  else
    let spec := spec_from_file_location w config_file config_path in
    config ← module_from_spec spec;
    _ ← run_toplevel w config;
    Ok config.

(** The body of the [try] in [findcandidate_files]: the entry to commit. *)
Definition load_entry (w : world) (m : PlugInMgr) (base_filename : string)
  : result entry :=
  module ← get_installed_config w m base_filename;
  members ← getmembers w module;
  Ok (Entry module (dict members)).

(** The [except AttributeError] clause. *)
Definition reraise (base_filename : string) (e : exn) : exn :=
  if decide (exn_cls e = AttributeError)
  then Exn ImportError ("Unable to import Plugin Module - " +:+ base_filename)
  else e.

(** The [for x in cfiles] loop.  A raise leaves the loop at once, with the
    object as it then is. *)
Fixpoint candidate_loop (w : world) (cfiles : list string) (p : process)
  : process * result unit :=
  match cfiles with
  | [] => (p, Ok tt)
  | x :: cfiles' =>
      let m := set_candidate_files (candidate_files (self p) ++ [x]) (self p) in
      let base_filename := os_path_split_tail x in
      let p1 := {| self := m; sys_path := sys_path p;
                   loads := loads p ++ [base_filename] |} in
      match load_entry w m base_filename with
      | Ok e =>
          let key := (splitext base_filename).1 in
          candidate_loop w cfiles'
            {| self := set_catalog (<[key := e]> (catalog m)) m;
               sys_path := sys_path p1; loads := loads p1 |}
      | Raise e => (p1, Raise (reraise base_filename e))
      end
  end.

Definition findcandidate_files (w : world) (p : process) : process * result unit :=
  let m := self p in
  let cfiles := glob w (plugin_dir m) ("*" +:+ plug_ext m) in
  candidate_loop w cfiles
    {| self := set_candidate_files [] m;
       sys_path := sys_path p ++ [plugin_dir m];
       loads := loads p |}.

Definition get_plugin (m : PlugInMgr) (plugin_name : string) : option module :=
  match catalog m !! plugin_name with
  | Some e => Some (handle e)
  | None => None
  end.

(** [has] returns [True], [False] or [None]: [Some true], [Some false], [None]. *)
Definition has (m : PlugInMgr) (plugin_name object_name : string) : option bool :=
  match catalog m !! plugin_name with
  | Some e => Some (bool_decide (object_name ∈ dom (attributes e)))
  | None => None
  end.

(** The truth value an [if] gives to what [has] returns. *)
Definition truthy (r : option bool) : bool :=
  match r with
  | Some true => true
  | _ => false
  end.

(** [d[k]] on a dict raises [KeyError] for a missing key. *)
Definition getitem {V : Type} (d : gmap string V) (k : string) : result V :=
  match d !! k with
  | Some v => Ok v
  | None => Raise (Exn KeyError k)
  end.

Definition get (m : PlugInMgr) (plugin_name object_name : string)
    (default_value : pyobj) : result pyobj :=
  if truthy (has m plugin_name object_name) then
    e ← getitem (catalog m) plugin_name;
    getitem (attributes e) object_name
  else Ok default_value.

(** ** What a discovery call commits *)

(** The key under which the loop stores the entry of candidate [x]. *)
Definition identifier (x : string) : string :=
  (splitext (os_path_split_tail x)).1.

Definition is_ok {A : Type} (r : result A) : bool :=
  match r with
  | Ok _ => true
  | Raise _ => false
  end.

(** Candidate [x] loads: the body of the [try] completes for it. *)
Definition loads_ok (w : world) (m : PlugInMgr) (x : string) : bool :=
  is_ok (load_entry w m (os_path_split_tail x)).

(** The item assignments the loop performs for the candidates [cfiles]
    that load, in order. *)
Definition committed (w : world) (m : PlugInMgr) (cfiles : list string)
  : list (string * entry) :=
  omap (fun x => match load_entry w m (os_path_split_tail x) with
                 | Ok e => Some (identifier x, e)
                 | Raise _ => None
                 end) cfiles.

(** The process [p] once the loop has left it: [files] recorded, [cat] in
    the catalog, [attempted] handed to the loader. *)
Definition settled (p : process) (files : list string) (cat : gmap string entry)
    (attempted : list string) : process :=
  {| self := {| plugin_dir := plugin_dir (self p); candidate_files := files;
                plug_ext := plug_ext (self p); catalog := cat |};
     sys_path := sys_path p; loads := attempted |}.

(** The candidates of a call, and the process as the loop is entered. *)
Definition candidates (w : world) (m : PlugInMgr) : list string :=
  glob w (plugin_dir m) ("*" +:+ plug_ext m).

Definition entered (p : process) : process :=
  {| self := set_candidate_files [] (self p);
     sys_path := sys_path p ++ [plugin_dir (self p)];
     loads := loads p |}.

(** ** The life of a manager *)

(** The processes a manager goes through: it is constructed, and then
    discovery is called any number of times, each time in a world that
    satisfies [ok]. *)
Inductive reachable (ok : world -> Prop) : process -> Prop :=
| reachable_init (cwd plugin_dir plug_ext : string) (path : list string) :
    reachable ok {| self := __init__ cwd plugin_dir plug_ext;
                    sys_path := path; loads := [] |}
| reachable_call (w : world) (p : process) :
    ok w -> reachable ok p -> reachable ok (findcandidate_files w p).1.

(** Introspection of a module always lists the name [n], as it does for
    [__name__] and [__doc__] on a module that left them in place. *)
Definition introspection_lists (n : string) (w : world) : Prop :=
  forall md ms, getmembers w md = Ok ms -> n ∈ ms.*1.

(** ** The identifier in the words of the specification *)

(** The base name with the configured extension removed: [name] without its
    last [len ext] characters.  The code derives the identifier with
    [splitext] instead; the two are compared below. *)
Definition strip_ext (ext name : string) : string :=
  Str.slice_to (Str.len name - Str.len ext) name.

(** The candidates of a directory the way the specification selects them:
    the entries whose name ends with the extension. *)
Definition matching (w : world) (m : PlugInMgr) : list string :=
  List.filter (Str.endswith (plug_ext m)) (os_scandir w (plugin_dir m)).

(** ** Example directories *)

Module Examples.

(** A file of the plugin directory: its name, whether it is still there
    when it is loaded, what executing it does, and what introspection of
    the executed module yields. *)
Record plugin_file := {
  pf_name : string;
  pf_present : bool;
  pf_run : result unit;
  pf_members : result (list (string * pyobj))
}.

Definition find_file (name : string) (files : list plugin_file) : option plugin_file :=
  List.find (fun f => bool_decide (pf_name f = name)) files.

(** The names a module has when its code left them in place, together
    with its [own]. *)
Definition module_members (name : string) (own : list (string * pyobj))
  : list (string * pyobj) :=
  own ++ [("__builtins__", PyOpaque "<module 'builtins'>"); ("__doc__", PyNone);
          ("__name__", PyStr name); ("__package__", PyStr "")].

(** The world in which directory [dir] holds [files], in this order, and
    importlib loads source files ([.py]). *)
Definition world_of (dir : string) (files : list plugin_file) : world :=
  {| os_scandir d := if decide (d = dir) then map pf_name files else [];
     path_exists p :=
       existsb (fun f => bool_decide (p = joinpath dir (pf_name f)) && pf_present f) files;
     has_loader p := Str.endswith ".py" p;
     run_toplevel m :=
       match find_file (mod_name m) files with
       | Some f => pf_run f
       | None => Raise (Exn FileNotFoundError (mod_file m))
       end;
     getmembers m :=
       match find_file (mod_name m) files with
       | Some f => pf_members f
       | None => Ok (module_members (mod_name m) [])
       end |}.

Definition source (name : string) (own : list (string * pyobj)) : plugin_file :=
  {| pf_name := name; pf_present := true; pf_run := Ok tt;
     pf_members := Ok (module_members name own) |}.

Definition raising (name : string) (e : exn) : plugin_file :=
  {| pf_name := name; pf_present := true; pf_run := Raise e;
     pf_members := Ok (module_members name []) |}.

Definition vanished (name : string) : plugin_file :=
  {| pf_name := name; pf_present := false; pf_run := Ok tt;
     pf_members := Ok (module_members name []) |}.

Definition dir : string := "/app/Plugins".

Definition start (ext : string) : process :=
  {| self := __init__ "/app" "Plugins" ext; sys_path := []; loads := [] |}.

(** [alpha.py] defines [VALUE = 42] and [greet]; [beta.py] defines nothing;
    [notes.txt] is not a plugin. *)
Definition two_plugins : world :=
  world_of dir
    [source "alpha.py" [("VALUE", PyInt 42); ("greet", PyOpaque "<function greet>")];
     source "notes.txt" [];
     source "beta.py" []].

(** [bad.py] is [raise ValueError("boom")]. *)
Definition value_error : world :=
  world_of dir
    [source "a.py" [];
     raising "bad.py" (Exn (OtherError "ValueError") "boom");
     source "c.py" []].

(** [broken.py] raises [AttributeError] at its top level. *)
Definition attribute_error : world :=
  world_of dir
    [source "a.py" [];
     raising "broken.py" (Exn AttributeError "'NoneType' object has no attribute 'x'");
     source "c.py" []].

(** [gone.py] is listed and deleted before it is loaded. *)
Definition deleted_file : world :=
  world_of dir [source "a.py" []; vanished "gone.py"; source "c.py" []].


(** Plugins named with a two-dot extension. *)
Definition two_dots : world :=
  world_of dir [source "alpha.plugin.py" []; source "beta.plugin.py" []].

(** Two files whose names are dots and [py]. *)
Definition dot_files : world :=
  world_of dir [source ".py" []; source ".py.py" []].

(** [a.py] loads, and later is edited to [raise ValueError("boom")]. *)
Definition before_edit : world := world_of dir [source "a.py" []].
Definition after_edit : world :=
  world_of dir [raising "a.py" (Exn (OtherError "ValueError") "boom")].

End Examples.

(** ** Further example directories *)

Module MoreExamples.

(** The plugin directory with nothing in it. *)
Definition empty_dir : world := Examples.world_of Examples.dir [].

(** The process after discovery in [Examples.two_plugins]. *)
Definition discovered : process :=
  (findcandidate_files Examples.two_plugins (Examples.start ".py")).1.

(** [quiet.py] is the one line [del __name__]: its code runs to the end,
    and introspection of the module no longer lists [__name__]. *)
Definition quiet_file : Examples.plugin_file :=
  {| Examples.pf_name := "quiet.py";
     Examples.pf_present := true;
     Examples.pf_run := Ok tt;
     Examples.pf_members :=
       Ok [("__builtins__", PyOpaque "<module 'builtins'>"); ("__doc__", PyNone);
           ("__package__", PyStr "")] |}.

Definition name_deleted : world := Examples.world_of Examples.dir [quiet_file].

End MoreExamples.

(** * Properties *)

(** ** Strings and paths *)

Section StringFacts.

Local Open Scope Z_scope.

Lemma len_nonneg (s : string) : 0 <= Str.len s.
Proof. induction s as [|a s IH]; simpl; lia. Qed.

Lemma len_app (s t : string) : Str.len (s +:+ t) = Str.len s + Str.len t.
Proof.
  induction s as [|a s IH]; simpl; [reflexivity|].
  change (String a s +:+ t) with (String a (s +:+ t)). simpl. lia.
Qed.

Lemma app_cons (a : ascii) (s t : string) :
  String a s +:+ t = String a (s +:+ t).
Proof. reflexivity. Qed.

Lemma app_empty_l (t : string) : EmptyString +:+ t = t.
Proof. reflexivity. Qed.

Lemma app_empty_r (s : string) : s +:+ EmptyString = s.
Proof. induction s as [|a s IH]; [reflexivity|]. rewrite app_cons, IH. reflexivity. Qed.

Lemma app_assoc_str (s t u : string) : (s +:+ t) +:+ u = s +:+ (t +:+ u).
Proof.
  induction s as [|a s IH]; [reflexivity|]. rewrite !app_cons, IH. reflexivity.
Qed.

Lemma take_app_len (s t : string) : Str.take (Z.to_nat (Str.len s)) (s +:+ t) = s.
Proof.
  induction s as [|a s IH].
  - simpl. destruct t; reflexivity.
  - rewrite app_cons. cbn [Str.len].
    pose proof (len_nonneg s).
    replace (Z.to_nat (1 + Str.len s)) with (S (Z.to_nat (Str.len s))) by lia.
    simpl. rewrite IH. reflexivity.
Qed.

Lemma drop_app_len (s t : string) : Str.drop (Z.to_nat (Str.len s)) (s +:+ t) = t.
Proof.
  induction s as [|a s IH].
  - simpl. destruct t; reflexivity.
  - rewrite app_cons. cbn [Str.len].
    pose proof (len_nonneg s).
    replace (Z.to_nat (1 + Str.len s)) with (S (Z.to_nat (Str.len s))) by lia.
    simpl. exact IH.
Qed.

Lemma mem_app (c : ascii) (s t : string) :
  Str.mem c (s +:+ t) = Str.mem c s || Str.mem c t.
Proof.
  induction s as [|a s IH]; [reflexivity|].
  rewrite app_cons. simpl. rewrite IH. apply orb_assoc.
Qed.

Lemma rfind_from_notin (c : ascii) (s : string) (i found : Z) :
  Str.mem c s = false -> Str.rfind_from c s i found = found.
Proof.
  revert i found. induction s as [|a s IH]; intros i found H; [reflexivity|].
  simpl in *. apply orb_false_iff in H as [Ha Hs].
  apply bool_decide_eq_false in Ha.
  destruct (decide (a = c)); [contradiction|]. apply IH, Hs.
Qed.

Lemma rfind_from_app (c : ascii) (s t : string) (i found : Z) :
  Str.rfind_from c (s +:+ t) i found
  = Str.rfind_from c t (i + Str.len s) (Str.rfind_from c s i found).
Proof.
  revert i found. induction s as [|a s IH]; intros i found.
  - simpl. rewrite app_empty_l. f_equal. lia.
  - rewrite app_cons. simpl. rewrite IH. f_equal. lia.
Qed.

(** The last occurrence: [c] followed by a string without [c]. *)
Lemma rfind_last (c : ascii) (s t : string) :
  Str.mem c t = false -> Str.rfind c (s +:+ String c t) = Str.len s.
Proof.
  intros H. unfold Str.rfind. rewrite rfind_from_app. simpl.
  destruct (decide (c = c)); [|congruence].
  rewrite rfind_from_notin by exact H. lia.
Qed.

Lemma rfind_notin (c : ascii) (s : string) :
  Str.mem c s = false -> Str.rfind c s = -1.
Proof. apply rfind_from_notin. Qed.

Lemma startswith_sep_mem (name : string) :
  Str.startswith "/" name = true -> Str.mem sep name = true.
Proof.
  destruct name as [|a name]; simpl; [discriminate|].
  intros H. apply andb_true_iff in H as [H _].
  apply bool_decide_eq_true in H. subst a. reflexivity.
Qed.

(** The base name of [dir / name] is [name]. *)
Lemma split_tail_joinpath (dir name : string) :
  Str.mem sep name = false -> os_path_split_tail (joinpath dir name) = name.
Proof.
  intros H. unfold joinpath.
  destruct (Str.startswith "/" name) eqn:Hs.
  { apply startswith_sep_mem in Hs. congruence. }
  unfold os_path_split_tail, Str.slice_from.
  case_bool_decide as Hd.
  - subst dir. change ("/" +:+ name) with (EmptyString +:+ String sep name).
    rewrite rfind_last by exact H. reflexivity.
  - change (dir +:+ "/" +:+ name) with (dir +:+ String sep name).
    rewrite rfind_last by exact H.
    pose proof (len_nonneg dir).
    replace (Z.to_nat (Str.len dir + 1)) with (Z.to_nat (Str.len (dir +:+ "/"))).
    2:{ rewrite len_app. reflexivity. }
    change (dir +:+ String sep name) with (dir +:+ ("/" +:+ name)).
    rewrite <- app_assoc_str. apply drop_app_len.
Qed.

(** [os.path.splitext] on a name [stem ++ "." ++ e] where [e] has no dot. *)
Lemma splitext_last_dot (stem e : string) :
  Str.mem sep (stem +:+ String extsep e) = false ->
  Str.mem extsep e = false ->
  splitext (stem +:+ String extsep e)
  = if has_stem stem
    then (stem, String extsep e)
    else (stem +:+ String extsep e, EmptyString).
Proof.
  intros Hsep Hdot. unfold splitext.
  rewrite (rfind_notin sep) by exact Hsep.
  rewrite rfind_last by exact Hdot.
  pose proof (len_nonneg stem).
  replace (-1 <? Str.len stem) with true by (symmetry; apply Z.ltb_lt; lia).
  replace (Str.len stem - (-1 + 1)) with (Str.len stem) by lia.
  unfold Str.slice_to, Str.slice_from. simpl Str.drop.
  rewrite take_app_len, drop_app_len. reflexivity.
Qed.

End StringFacts.

Section MatchingFacts.


Lemma endswith_inv (ext name : string) :
  Str.endswith ext name = true -> exists stem, name = stem +:+ ext.
Proof.
  induction name as [|a name IH]; simpl; intros H.
  - rewrite orb_false_r in H. apply bool_decide_eq_true in H. subst ext.
    exists EmptyString. reflexivity.
  - apply orb_true_iff in H as [H|H].
    + apply bool_decide_eq_true in H. exists EmptyString. rewrite app_empty_l. done.
    + destruct (IH H) as [stem ->]. exists (String a stem). reflexivity.
Qed.

Lemma strip_ext_app (ext stem : string) : strip_ext ext (stem +:+ ext) = stem.
Proof.
  unfold strip_ext, Str.slice_to. rewrite len_app.
  replace (Str.len stem + Str.len ext - Str.len ext)%Z with (Str.len stem) by lia.
  apply take_app_len.
Qed.

(** A pattern without [*] and [?] matches itself only. *)
Lemma fnmatch_literal (pat name : string) :
  Str.any (fun a => bool_decide (a = "*"%char) || bool_decide (a = "?"%char)) pat = false ->
  fnmatch pat name = bool_decide (name = pat).
Proof.
  revert name. induction pat as [|c pat IH]; intros name H; [reflexivity|].
  simpl in H. apply orb_false_iff in H as [Hc Hp].
  apply orb_false_iff in Hc as [Hstar Hq].
  simpl. rewrite Hstar.
  destruct name as [|a name].
  - symmetry. apply bool_decide_eq_false. discriminate.
  - rewrite Hq, IH by exact Hp. simpl.
    destruct (decide (a = c)) as [->|Hne].
    + rewrite bool_decide_eq_true_2 by reflexivity. simpl.
      apply bool_decide_ext. split; [intros ->; reflexivity | congruence].
    + rewrite (bool_decide_eq_false_2 (a = c)) by exact Hne. simpl.
      symmetry. apply bool_decide_eq_false. congruence.
Qed.

Lemma literal_ext_no_wildcard (ext : string) :
  literal_ext ext = true ->
  Str.any (fun a => bool_decide (a = "*"%char) || bool_decide (a = "?"%char)) ext = false.
Proof.
  unfold literal_ext. intros H. apply negb_true_iff in H.
  induction ext as [|a ext IH]; [reflexivity|].
  simpl in *. apply orb_false_iff in H as [Ha He].
  rewrite (IH He), orb_false_r.
  destruct (bool_decide (a = "*"%char)), (bool_decide (a = "?"%char)); simpl in *; congruence.
Qed.

(** For a literal extension the pattern ["*" + ext] selects the names
    that end with [ext]. *)
Lemma fnmatch_star_ext (ext name : string) :
  literal_ext ext = true ->
  fnmatch ("*" +:+ ext) name = Str.endswith ext name.
Proof.
  intros H. apply literal_ext_no_wildcard in H.
  change ("*" +:+ ext) with (String "*"%char ext).
  cbn [fnmatch]. rewrite bool_decide_eq_true_2 by reflexivity.
  induction name as [|a name IH]; simpl.
  - rewrite fnmatch_literal by exact H. reflexivity.
  - rewrite fnmatch_literal by exact H. rewrite <- IH. reflexivity.
Qed.

Lemma glob_matching (w : world) (m : PlugInMgr) :
  literal_ext (plug_ext m) = true ->
  glob w (plugin_dir m) ("*" +:+ plug_ext m)
  = map (joinpath (plugin_dir m)) (matching w m).
Proof.
  intros H. unfold glob, matching. f_equal.
  apply List.filter_ext. intros name. apply fnmatch_star_ext, H.
Qed.

End MatchingFacts.

(** ** Sequences of item assignments *)

Section UpdateAll.

Context {V : Type}.
Implicit Types (kvs : list (string * V)) (d : gmap string V).

Lemma update_all_union kvs d : update_all kvs d = update_all kvs ∅ ∪ d.
Proof.
  revert d. induction kvs as [|[k v] kvs IH]; intros d; simpl.
  - unfold update_all. simpl. by rewrite (left_id_L ∅ (∪)).
  - unfold update_all in *. simpl. rewrite IH, (IH (<[k:=v]> ∅)).
    rewrite <- (assoc_L (∪)). f_equal.
    by rewrite insert_empty, insert_union_singleton_l.
Qed.

Lemma update_all_idemp kvs d : update_all kvs (update_all kvs d) = update_all kvs d.
Proof.
  rewrite (update_all_union kvs (update_all kvs d)), (update_all_union kvs d).
  by rewrite (assoc_L (∪)), (idemp_L (∪)).
Qed.

Lemma update_all_app kvs1 kvs2 d :
  update_all (kvs1 ++ kvs2) d = update_all kvs2 (update_all kvs1 d).
Proof. unfold update_all. apply fold_left_app. Qed.

Lemma update_all_dom kvs d :
  dom (update_all kvs d) = list_to_set kvs.*1 ∪ dom d.
Proof.
  revert d. induction kvs as [|[k v] kvs IH]; intros d.
  - unfold update_all. simpl. by rewrite (left_id_L ∅ (∪)).
  - change (update_all ((k, v) :: kvs) d) with (update_all kvs (<[k:=v]> d)).
    rewrite IH, dom_insert_L. simpl.
    by rewrite (assoc_L (∪)), (comm_L (∪) (list_to_set _) {[k]}).
Qed.

Lemma update_all_lookup_None kvs d k :
  k ∉ kvs.*1 -> update_all kvs d !! k = d !! k.
Proof.
  revert d. induction kvs as [|[k' v] kvs IH]; intros d Hk; [reflexivity|].
  change (update_all ((k', v) :: kvs) d) with (update_all kvs (<[k':=v]> d)).
  simpl in Hk. apply not_elem_of_cons in Hk as [Hne Hk].
  rewrite IH by exact Hk. by rewrite lookup_insert_ne.
Qed.

(** With distinct keys every assignment is still visible at the end. *)
Lemma update_all_lookup_NoDup kvs d k v :
  NoDup kvs.*1 -> (k, v) ∈ kvs -> update_all kvs d !! k = Some v.
Proof.
  revert d. induction kvs as [|[k' v'] kvs IH]; intros d Hnd Hin.
  - by apply elem_of_nil in Hin.
  - change (update_all ((k', v') :: kvs) d) with (update_all kvs (<[k':=v']> d)).
    simpl in Hnd. apply NoDup_cons in Hnd as [Hk' Hnd].
    apply elem_of_cons in Hin as [Heq|Hin].
    + inversion Heq; subst k' v'.
      rewrite update_all_lookup_None by exact Hk'. apply lookup_insert_eq.
    + by apply IH.
Qed.

(** Every key in the result was there before or was assigned. *)
Lemma update_all_lookup_Some kvs d k v :
  update_all kvs d !! k = Some v -> (k, v) ∈ kvs \/ d !! k = Some v.
Proof.
  revert d. induction kvs as [|[k' v'] kvs IH]; intros d H; [by right|].
  change (update_all ((k', v') :: kvs) d) with (update_all kvs (<[k':=v']> d)) in H.
  apply IH in H as [H|H]; [left; by apply elem_of_cons; right|].
  destruct (decide (k' = k)) as [->|Hne].
  - rewrite lookup_insert_eq in H. inversion H; subst. left. apply elem_of_cons. by left.
  - rewrite lookup_insert_ne in H by exact Hne. by right.
Qed.

Lemma update_all_size_NoDup kvs :
  NoDup kvs.*1 -> size (update_all kvs ∅) = length kvs.
Proof.
  intros Hnd. rewrite <- size_dom, update_all_dom, dom_empty_L, (right_id_L ∅ (∪)).
  rewrite size_list_to_set by exact Hnd. apply length_fmap.
Qed.

End UpdateAll.

(** ** The discovery loop *)

Section Loop.

Variable w : world.

Lemma get_installed_config_dir (m m' : PlugInMgr) (f : string) :
  plugin_dir m = plugin_dir m' ->
  get_installed_config w m f = get_installed_config w m' f.
Proof. unfold get_installed_config. intros ->. reflexivity. Qed.

Lemma load_entry_dir (m m' : PlugInMgr) (f : string) :
  plugin_dir m = plugin_dir m' -> load_entry w m f = load_entry w m' f.
Proof.
  intros H. unfold load_entry. by rewrite (get_installed_config_dir m m' f H).
Qed.

Lemma committed_cons (m : PlugInMgr) (x : string) (cfiles : list string) :
  committed w m (x :: cfiles)
  = match load_entry w m (os_path_split_tail x) with
    | Ok e => (identifier x, e) :: committed w m cfiles
    | Raise _ => committed w m cfiles
    end.
Proof.
  unfold committed. simpl.
  by destruct (load_entry w m (os_path_split_tail x)).
Qed.

Lemma committed_dir (m m' : PlugInMgr) (cfiles : list string) :
  plugin_dir m = plugin_dir m' -> committed w m cfiles = committed w m' cfiles.
Proof.
  intros H. induction cfiles as [|x cfiles IH]; [reflexivity|].
  by rewrite !committed_cons, (load_entry_dir m m' _ H), IH.
Qed.

Lemma loads_ok_dir (m m' : PlugInMgr) (x : string) :
  plugin_dir m = plugin_dir m' -> loads_ok w m x = loads_ok w m' x.
Proof. intros H. unfold loads_ok. by rewrite (load_entry_dir m m' _ H). Qed.

Lemma loads_ok_entry (m : PlugInMgr) (x : string) :
  loads_ok w m x = true -> exists e, load_entry w m (os_path_split_tail x) = Ok e.
Proof.
  unfold loads_ok. destruct (load_entry w m (os_path_split_tail x)) as [e|e];
    [eauto | discriminate].
Qed.

Lemma committed_cons_ok (m : PlugInMgr) (x : string) (cfiles : list string) (e : entry) :
  load_entry w m (os_path_split_tail x) = Ok e ->
  committed w m (x :: cfiles) = (identifier x, e) :: committed w m cfiles.
Proof. intros H. by rewrite committed_cons, H. Qed.

(** When every candidate loads, the loop runs to its end: all candidates
    are recorded, handed to the loader, and committed. *)
Lemma candidate_loop_all_ok (cfiles : list string) (p : process) :
  Forall (fun x => loads_ok w (self p) x = true) cfiles ->
  candidate_loop w cfiles p
  = (settled p (candidate_files (self p) ++ cfiles)
       (update_all (committed w (self p) cfiles) (catalog (self p)))
       (loads p ++ map os_path_split_tail cfiles),
     Ok tt).
Proof.
  revert p. induction cfiles as [|x cfiles IH]; intros p Hok.
  - simpl. unfold settled, committed, update_all. simpl.
    rewrite !app_nil_r. by destruct p as [[] ? ?].
  - apply Forall_cons in Hok as [Hx Hok].
    apply loads_ok_entry in Hx as [e He].
    rewrite (committed_cons_ok (self p) x cfiles e He).
    cbn [candidate_loop].
    rewrite (load_entry_dir _ (self p)) by reflexivity. rewrite He.
    rewrite IH.
    + rewrite (committed_dir _ (self p)) by reflexivity.
      unfold settled. cbn [self sys_path loads plugin_dir plug_ext catalog
                            candidate_files set_catalog set_candidate_files map].
      rewrite <- !app_assoc. reflexivity.
    + eapply Forall_impl; [exact Hok|]. intros y Hy.
      by rewrite (loads_ok_dir _ (self p)).
Qed.

(** When candidate [x] is the first that fails, the loop stops there:
    [x] is recorded and handed to the loader, nothing after it is, and
    the candidates before it are committed. *)
Lemma candidate_loop_first_failure
    (pre : list string) (x : string) (post : list string) (e : exn) (p : process) :
  Forall (fun y => loads_ok w (self p) y = true) pre ->
  load_entry w (self p) (os_path_split_tail x) = Raise e ->
  candidate_loop w (pre ++ x :: post) p
  = (settled p (candidate_files (self p) ++ pre ++ [x])
       (update_all (committed w (self p) pre) (catalog (self p)))
       (loads p ++ map os_path_split_tail (pre ++ [x])),
     Raise (reraise (os_path_split_tail x) e)).
Proof.
  revert p. induction pre as [|y pre IH]; intros p Hok Hx.
  - cbn [app candidate_loop].
    rewrite (load_entry_dir _ (self p)) by reflexivity. rewrite Hx.
    unfold settled, committed, update_all. reflexivity.
  - apply Forall_cons in Hok as [Hy Hok].
    apply loads_ok_entry in Hy as [ey Hey].
    rewrite (committed_cons_ok (self p) y pre ey Hey).
    cbn [app candidate_loop].
    rewrite (load_entry_dir _ (self p)) by reflexivity. rewrite Hey.
    rewrite IH.
    + rewrite (committed_dir _ (self p)) by reflexivity.
      unfold settled. cbn [self sys_path loads plugin_dir plug_ext catalog
                            candidate_files set_catalog set_candidate_files map app].
      rewrite <- !app_assoc. reflexivity.
    + eapply Forall_impl; [exact Hok|]. intros z Hz.
      by rewrite (loads_ok_dir _ (self p)).
    + rewrite (load_entry_dir _ (self p)) by reflexivity. exact Hx.
Qed.

(** Every list of candidates is of one of these two kinds. *)
Lemma candidates_cases (m : PlugInMgr) (cfiles : list string) :
  Forall (fun x => loads_ok w m x = true) cfiles \/
  exists pre x post e,
    cfiles = pre ++ x :: post /\
    Forall (fun y => loads_ok w m y = true) pre /\
    load_entry w m (os_path_split_tail x) = Raise e.
Proof.
  induction cfiles as [|x cfiles IH]; [by left|].
  destruct (load_entry w m (os_path_split_tail x)) as [e|e] eqn:Hx.
  - assert (loads_ok w m x = true) as Hok by (unfold loads_ok; by rewrite Hx).
    destruct IH as [IH|(pre & y & post & e' & -> & Hpre & Hy)].
    + left. by constructor.
    + right. exists (x :: pre), y, post, e'. repeat split; [|exact Hy].
      by constructor.
  - right. exists [], x, cfiles, e. by repeat split.
Qed.

End Loop.

(** ** A discovery call *)

Section Discovery.

Variable w : world.

Lemma findcandidate_files_loop (p : process) :
  findcandidate_files w p = candidate_loop w (candidates w (self p)) (entered p).
Proof. reflexivity. Qed.

(** A call either goes through all its candidates or stops at the first
    that fails. *)
Lemma findcandidate_files_cases (p : process) :
  (Forall (fun x => loads_ok w (self p) x = true) (candidates w (self p)) /\
   findcandidate_files w p
   = (settled (entered p) (candidates w (self p))
        (update_all (committed w (self p) (candidates w (self p))) (catalog (self p)))
        (loads p ++ map os_path_split_tail (candidates w (self p))),
      Ok tt))
  \/
  (exists pre x post e,
     candidates w (self p) = pre ++ x :: post /\
     Forall (fun y => loads_ok w (self p) y = true) pre /\
     load_entry w (self p) (os_path_split_tail x) = Raise e /\
     findcandidate_files w p
     = (settled (entered p) (pre ++ [x])
          (update_all (committed w (self p) pre) (catalog (self p)))
          (loads p ++ map os_path_split_tail (pre ++ [x])),
        Raise (reraise (os_path_split_tail x) e))).
Proof.
  rewrite findcandidate_files_loop.
  destruct (candidates_cases w (self p) (candidates w (self p)))
    as [Hok|(pre & x & post & e & Heq & Hpre & Hx)].
  - left. split; [exact Hok|].
    rewrite candidate_loop_all_ok.
    + by rewrite (committed_dir w _ (self p)).
    + eapply Forall_impl; [exact Hok|]. intros y Hy.
      by rewrite (loads_ok_dir w _ (self p)).
  - right. exists pre, x, post, e. repeat split; [exact Heq|exact Hpre|exact Hx|].
    rewrite Heq, (candidate_loop_first_failure w pre x post e).
    + by rewrite (committed_dir w _ (self p)).
    + eapply Forall_impl; [exact Hpre|]. intros y Hy.
      by rewrite (loads_ok_dir w _ (self p)).
    + by rewrite (load_entry_dir w _ (self p)).
Qed.

(** A call that returns went through all its candidates. *)
Lemma findcandidate_files_Ok (p p' : process) :
  findcandidate_files w p = (p', Ok tt) ->
  Forall (fun x => loads_ok w (self p) x = true) (candidates w (self p)) /\
  p' = settled (entered p) (candidates w (self p))
         (update_all (committed w (self p) (candidates w (self p))) (catalog (self p)))
         (loads p ++ map os_path_split_tail (candidates w (self p))).
Proof.
  intros H.
  destruct (findcandidate_files_cases p) as [[Hok Heq]|(pre & x & post & e & _ & _ & _ & Heq)];
    rewrite Heq in H; [|discriminate].
  split; [exact Hok|]. by inversion H.
Qed.

Lemma committed_all_ok (m : PlugInMgr) (cfiles : list string) :
  Forall (fun x => loads_ok w m x = true) cfiles ->
  (committed w m cfiles).*1 = map identifier cfiles.
Proof.
  induction cfiles as [|x cfiles IH]; intros Hok; [reflexivity|].
  apply Forall_cons in Hok as [Hx Hok].
  apply loads_ok_entry in Hx as [e He].
  rewrite (committed_cons_ok w m x cfiles e He), fmap_cons, IH by exact Hok.
  reflexivity.
Qed.

Lemma committed_elem (m : PlugInMgr) (cfiles : list string) (k : string) (e : entry) :
  (k, e) ∈ committed w m cfiles ->
  exists x, x ∈ cfiles /\ k = identifier x /\
            load_entry w m (os_path_split_tail x) = Ok e.
Proof.
  induction cfiles as [|x cfiles IH]; intros H.
  - by apply elem_of_nil in H.
  - rewrite committed_cons in H.
    destruct (load_entry w m (os_path_split_tail x)) as [ex|ex] eqn:Hx.
    + apply elem_of_cons in H as [H|H].
      * inversion H; subst. exists x. repeat split; [apply elem_of_cons; by left | exact Hx].
      * destruct (IH H) as (y & Hy & Hk & Hl). exists y.
        repeat split; [apply elem_of_cons; by right | exact Hk | exact Hl].
    + destruct (IH H) as (y & Hy & Hk & Hl). exists y.
      repeat split; [apply elem_of_cons; by right | exact Hk | exact Hl].
Qed.

Lemma committed_elem_ok (m : PlugInMgr) (cfiles : list string) (x : string) (e : entry) :
  x ∈ cfiles -> load_entry w m (os_path_split_tail x) = Ok e ->
  (identifier x, e) ∈ committed w m cfiles.
Proof.
  induction cfiles as [|y cfiles IH]; intros Hin He.
  - by apply elem_of_nil in Hin.
  - rewrite committed_cons. apply elem_of_cons in Hin as [->|Hin].
    + rewrite He. apply elem_of_cons. by left.
    + destruct (load_entry w m (os_path_split_tail y)); [apply elem_of_cons; right|]; by apply IH.
Qed.

(** What the body of the [try] returns is the module together with the
    dictionary of its members. *)
Lemma load_entry_Ok (m : PlugInMgr) (f : string) (e : entry) :
  load_entry w m f = Ok e ->
  get_installed_config w m f = Ok (handle e) /\
  exists ms, getmembers w (handle e) = Ok ms /\ attributes e = dict ms.
Proof.
  unfold load_entry. destruct (get_installed_config w m f) as [md|ex]; [|discriminate].
  cbn. destruct (getmembers w md) as [ms|ex] eqn:Hms; [|discriminate].
  cbn. intros H. inversion H; subst e. cbn. split; [reflexivity|].
  exists ms. by split.
Qed.

End Discovery.

(** * The claims of the specification *)

(** ** Queries *)

(** C1: [has] has three outcomes.  It returns [True] exactly when the
    identifier is a key of the catalog and the attribute name is a key of
    that entry's snapshot, [False] exactly when the identifier is a key of
    the catalog and the attribute name is not in the snapshot, and [None],
    which is neither [True] nor [False], exactly when the identifier is not
    in the catalog. *)
Theorem has_three_outcomes (m : PlugInMgr) (id attributeName : string) :
  (has m id attributeName = Some true <->
   exists e, catalog m !! id = Some e /\ attributeName ∈ dom (attributes e)) /\
  (has m id attributeName = Some false <->
   exists e, catalog m !! id = Some e /\ attributeName ∉ dom (attributes e)) /\
  (has m id attributeName = None <-> id ∉ dom (catalog m)) /\
  (has m id attributeName = None ->
   has m id attributeName <> Some true /\ has m id attributeName <> Some false).
Proof.
  unfold has. rewrite not_elem_of_dom.
  destruct (catalog m !! id) as [e|] eqn:He.
  - repeat split.
    + intros H. exists e. split; [reflexivity|].
      inversion H as [Hb]. by apply bool_decide_eq_true in Hb.
    + intros (e' & Heq & Hin). inversion Heq; subst e'.
      by rewrite bool_decide_eq_true_2.
    + intros H. exists e. split; [reflexivity|].
      inversion H as [Hb]. by apply bool_decide_eq_false in Hb.
    + intros (e' & Heq & Hin). inversion Heq; subst e'.
      by rewrite bool_decide_eq_false_2.
    + discriminate.
    + discriminate.
    + discriminate.
    + discriminate.
  - repeat split; try discriminate; try reflexivity.
    + intros (e' & Heq & _). discriminate.
    + intros (e' & Heq & _). discriminate.
Qed.

(** C3: [get] returns the value stored in the snapshot when [has] is true,
    and the default otherwise: both when the identifier is not in the
    catalog and when it is but the attribute is not in its snapshot, so the
    two cases give the same answer.  [get] never raises. *)
Theorem get_value_or_default (m : PlugInMgr) (id attributeName : string)
    (defaultValue : pyobj) :
  (has m id attributeName = Some true ->
   exists e v, catalog m !! id = Some e /\ attributes e !! attributeName = Some v /\
               get m id attributeName defaultValue = Ok v) /\
  (has m id attributeName <> Some true ->
   get m id attributeName defaultValue = Ok defaultValue) /\
  (id ∉ dom (catalog m) -> get m id attributeName defaultValue = Ok defaultValue) /\
  (forall e, catalog m !! id = Some e -> attributeName ∉ dom (attributes e) ->
             get m id attributeName defaultValue = Ok defaultValue) /\
  (exists v, get m id attributeName defaultValue = Ok v).
Proof.
  unfold get, has, getitem. rewrite not_elem_of_dom.
  destruct (catalog m !! id) as [e|] eqn:He; cbn.
  - destruct (decide (attributeName ∈ dom (attributes e))) as [Hin|Hin].
    + rewrite bool_decide_eq_true_2 by exact Hin. cbn.
      apply elem_of_dom in Hin as [v Hv]. rewrite Hv.
      repeat split; try congruence; eauto.
      intros e' Heq Hn. inversion Heq; subst e'.
      exfalso. apply Hn. apply elem_of_dom. eauto.
    + rewrite bool_decide_eq_false_2 by exact Hin. cbn.
      repeat split; try congruence; eauto.
  - repeat split; try congruence; eauto.
Qed.

(** ** The loader *)



(** ** Discovery that fails *)

(** C2: when candidate [x] is the first that fails to load, the call raises.
    The catalog is then exactly what the loop had made of it on the
    candidates before [x] (their entries are in place, nothing is rolled
    back, and every other key is as it was before the call), and the loader
    was handed the candidates up to [x] and none after it. *)
Theorem discovery_aborts_at_first_failure
    (w : world) (p : process) (pre : list string) (x : string)
    (post : list string) (e : exn) :
  candidates w (self p) = pre ++ x :: post ->
  Forall (fun y => loads_ok w (self p) y = true) pre ->
  load_entry w (self p) (os_path_split_tail x) = Raise e ->
  exists p' e',
    findcandidate_files w p = (p', Raise e') /\
    catalog (self p') = catalog (self (candidate_loop w pre (entered p)).1) /\
    catalog (self p')
    = update_all (committed w (self p) pre) (catalog (self p)) /\
    (forall y ey, y ∈ pre -> load_entry w (self p) (os_path_split_tail y) = Ok ey ->
                  identifier y ∈ dom (catalog (self p'))) /\
    (forall k, k ∉ map identifier pre ->
               catalog (self p') !! k = catalog (self p) !! k) /\
    loads p' = loads p ++ map os_path_split_tail pre ++ [os_path_split_tail x].
Proof.
  intros Hc Hpre Hx.
  assert (Forall (fun y => loads_ok w (self (entered p)) y = true) pre) as Hpre'.
  { eapply Forall_impl; [exact Hpre|]. intros y Hy.
    by rewrite (loads_ok_dir w _ (self p)). }
  eexists _, (reraise (os_path_split_tail x) e).
  split; [|split; [|split; [|split; [|split]]]].
  - rewrite findcandidate_files_loop, Hc.
    apply (candidate_loop_first_failure w pre x post e).
    + exact Hpre'.
    + by rewrite (load_entry_dir w _ (self p)).
  - rewrite (candidate_loop_all_ok w pre (entered p) Hpre'). reflexivity.
  - cbn. by rewrite (committed_dir w _ (self p)).
  - intros y ey Hy Hey. cbn.
    rewrite (committed_dir w _ (self p)) by reflexivity.
    rewrite update_all_dom. apply elem_of_union_l, elem_of_list_to_set.
    rewrite (committed_all_ok w (self p) pre Hpre).
    apply list_elem_of_fmap. by exists y.
  - intros k Hk. cbn.
    rewrite (committed_dir w _ (self p)) by reflexivity.
    apply update_all_lookup_None.
    by rewrite (committed_all_ok w (self p) pre Hpre).
  - cbn. by rewrite map_app.
Qed.

(** C10, as amended: when candidate [x] is the first that fails,
    [candidate_files] is the candidates up to and including [x], and the
    catalog is the one from before the call with the candidates before [x]
    committed.  The identifier of [x] is then absent from the catalog when
    it was absent before the call and no earlier candidate has the same
    identifier. *)
Theorem failed_discovery_state
    (w : world) (p : process) (pre : list string) (x : string)
    (post : list string) (e : exn) :
  candidates w (self p) = pre ++ x :: post ->
  Forall (fun y => loads_ok w (self p) y = true) pre ->
  load_entry w (self p) (os_path_split_tail x) = Raise e ->
  exists p' e',
    findcandidate_files w p = (p', Raise e') /\
    candidate_files (self p') = pre ++ [x] /\
    x ∈ candidate_files (self p') /\
    dom (catalog (self p'))
    = list_to_set (map identifier pre) ∪ dom (catalog (self p)) /\
    (identifier x ∉ dom (catalog (self p)) ->
     identifier x ∉ map identifier pre ->
     identifier x ∉ dom (catalog (self p'))).
Proof.
  intros Hc Hpre Hx.
  eexists _, (reraise (os_path_split_tail x) e).
  split; [|split; [|split; [|split]]].
  - rewrite findcandidate_files_loop, Hc.
    apply (candidate_loop_first_failure w pre x post e).
    + eapply Forall_impl; [exact Hpre|]. intros y Hy.
      by rewrite (loads_ok_dir w _ (self p)).
    + by rewrite (load_entry_dir w _ (self p)).
  - reflexivity.
  - cbn. apply elem_of_app. right. apply elem_of_cons. by left.
  - cbn. rewrite (committed_dir w _ (self p)) by reflexivity.
    by rewrite update_all_dom, (committed_all_ok w (self p) pre Hpre).
  - intros Hold Hnew. cbn.
    rewrite (committed_dir w _ (self p)) by reflexivity.
    rewrite update_all_dom, (committed_all_ok w (self p) pre Hpre).
    intros [H|H]%elem_of_union; [|by apply Hold].
    by apply elem_of_list_to_set in H.
Qed.

(** The call in [Examples.value_error] stops at [bad.py]. *)
Lemma discovery_aborts_at_first_failure_witness :
  exists p' e',
    findcandidate_files Examples.value_error (Examples.start ".py") = (p', Raise e') /\
    catalog (self p')
    = catalog (self (candidate_loop Examples.value_error ["/app/Plugins/a.py"]
                       (entered (Examples.start ".py"))).1) /\
    catalog (self p')
    = update_all (committed Examples.value_error (self (Examples.start ".py"))
                    ["/app/Plugins/a.py"])
        (catalog (self (Examples.start ".py"))) /\
    (forall y ey, y ∈ ["/app/Plugins/a.py"] ->
       load_entry Examples.value_error (self (Examples.start ".py"))
         (os_path_split_tail y) = Ok ey ->
       identifier y ∈ dom (catalog (self p'))) /\
    (forall k, k ∉ map identifier ["/app/Plugins/a.py"] ->
       catalog (self p') !! k = catalog (self (Examples.start ".py")) !! k) /\
    loads p'
    = loads (Examples.start ".py") ++ map os_path_split_tail ["/app/Plugins/a.py"]
      ++ [os_path_split_tail "/app/Plugins/bad.py"].
Proof.
  apply (discovery_aborts_at_first_failure Examples.value_error (Examples.start ".py")
           ["/app/Plugins/a.py"] "/app/Plugins/bad.py" ["/app/Plugins/c.py"]
           (Exn (OtherError "ValueError") "boom")).
  - vm_compute. reflexivity.
  - repeat constructor.
  - vm_compute. reflexivity.
Defined.

(** The same call, for the state it leaves. *)
Lemma failed_discovery_state_witness :
  exists p' e',
    findcandidate_files Examples.value_error (Examples.start ".py") = (p', Raise e') /\
    candidate_files (self p') = ["/app/Plugins/a.py"] ++ ["/app/Plugins/bad.py"] /\
    "/app/Plugins/bad.py" ∈ candidate_files (self p') /\
    dom (catalog (self p'))
    = list_to_set (map identifier ["/app/Plugins/a.py"])
      ∪ dom (catalog (self (Examples.start ".py"))) /\
    (identifier "/app/Plugins/bad.py" ∉ dom (catalog (self (Examples.start ".py"))) ->
     identifier "/app/Plugins/bad.py" ∉ map identifier ["/app/Plugins/a.py"] ->
     identifier "/app/Plugins/bad.py" ∉ dom (catalog (self p'))).
Proof.
  apply (failed_discovery_state Examples.value_error (Examples.start ".py")
           ["/app/Plugins/a.py"] "/app/Plugins/bad.py" ["/app/Plugins/c.py"]
           (Exn (OtherError "ValueError") "boom")).
  - vm_compute. reflexivity.
  - repeat constructor.
  - vm_compute. reflexivity.
Defined.

(** C10, as stated, fails: [a.py] was cataloged by an earlier call and then
    edited; the next call fails on it, records its path, and its identifier
    is still in the catalog. *)
Lemma failing_identifier_still_cataloged :
  (findcandidate_files Examples.before_edit (Examples.start ".py")).2 = Ok tt /\
  (findcandidate_files Examples.after_edit
     (findcandidate_files Examples.before_edit (Examples.start ".py")).1).2
  = Raise (Exn (OtherError "ValueError") "boom") /\
  candidate_files
    (self (findcandidate_files Examples.after_edit
             (findcandidate_files Examples.before_edit (Examples.start ".py")).1).1)
  = ["/app/Plugins/a.py"] /\
  identifier "/app/Plugins/a.py" = "a" /\
  get_plugin
    (self (findcandidate_files Examples.after_edit
             (findcandidate_files Examples.before_edit (Examples.start ".py")).1).1)
    "a"
  = Some (Module_ "a.py" "/app/Plugins/a.py").
Proof. repeat split; vm_compute; reflexivity. Qed.

(** ** Discovery that is repeated *)



(** ** Snapshots *)

Section Snapshots.

Lemma dict_dom (ms : list (string * pyobj)) (n : string) :
  n ∈ dom (dict ms) <-> n ∈ ms.*1.
Proof.
  unfold dict. rewrite update_all_dom, dom_empty_L, (right_id_L ∅ (∪)).
  apply elem_of_list_to_set.
Qed.

(** An entry in the catalog after a call was there before the call or was
    committed by it, from what introspection of its module listed. *)
Lemma catalog_entry_origin (w : world) (p : process) (id : string) (e : entry) :
  catalog (self (findcandidate_files w p).1) !! id = Some e ->
  catalog (self p) !! id = Some e \/
  exists ms, getmembers w (handle e) = Ok ms /\ attributes e = dict ms.
Proof.
  intros H.
  assert (exists cs, catalog (self (findcandidate_files w p).1)
                     = update_all (committed w (self p) cs) (catalog (self p)))
    as [cs Hcat].
  { destruct (findcandidate_files_cases w p)
      as [[_ Heq]|(pre & x & post & ex & _ & _ & _ & Heq)]; rewrite Heq; eauto. }
  rewrite Hcat in H. apply update_all_lookup_Some in H as [H|H]; [right|by left].
  apply committed_elem in H as (x & _ & _ & Hl).
  by apply load_entry_Ok in Hl as [_ Hms].
Qed.

End Snapshots.

(** C9, as amended: the snapshot of a plugin that a call catalogs has
    exactly the names that introspection of its module produced, none
    filtered out: [has] is true for each of them, dunder names included, and
    false for every other name.  Where introspection lists a name for every
    module, as it does for [__name__] and [__doc__] on modules whose code
    left them in place, [has] is true for that name on every identifier of
    the catalog, at any time in the life of the manager. *)
Theorem snapshot_has_introspected_names :
  (forall (w : world) (p : process) (id : string) (e : entry),
     catalog (self (findcandidate_files w p).1) !! id = Some e ->
     catalog (self p) !! id = Some e \/
     exists ms, getmembers w (handle e) = Ok ms /\
                forall n,
                  (n ∈ ms.*1 ->
                   has (self (findcandidate_files w p).1) id n = Some true) /\
                  (n ∉ ms.*1 ->
                   has (self (findcandidate_files w p).1) id n = Some false)) /\
  (forall (n : string) (p : process),
     reachable (introspection_lists n) p ->
     forall id, id ∈ dom (catalog (self p)) -> has (self p) id n = Some true).
Proof.
  split.
  - intros w p id e H.
    destruct (catalog_entry_origin w p id e H) as [Hold|(ms & Hms & Hattr)];
      [by left|right].
    exists ms. split; [exact Hms|]. intros n.
    unfold has. rewrite H, Hattr. split; intros Hn; f_equal.
    + apply bool_decide_eq_true. by apply dict_dom.
    + apply bool_decide_eq_false. by rewrite dict_dom.
  - intros n p Hreach.
    assert (forall id e, catalog (self p) !! id = Some e -> n ∈ dom (attributes e))
      as Hinv.
    { induction Hreach as [cwd d ext path|w p Hw Hreach IH]; intros id e H.
      - cbn in H. by rewrite lookup_empty in H.
      - destruct (catalog_entry_origin w p id e H) as [Hold|(ms & Hms & Hattr)].
        + by apply (IH id).
        + rewrite Hattr. apply dict_dom. by apply (Hw (handle e)). }
    intros id [e He]%elem_of_dom. unfold has. rewrite He. f_equal.
    apply bool_decide_eq_true. by apply (Hinv id).
Qed.

(** After discovery in [Examples.two_plugins], [beta], which defines
    nothing, has [__name__]. *)
Lemma snapshot_has_introspected_names_witness :
  has (self (findcandidate_files Examples.two_plugins (Examples.start ".py")).1)
    "beta" "__name__" = Some true.
Proof.
  apply (proj2 snapshot_has_introspected_names "__name__").
  - apply reachable_call; [|apply reachable_init].
    intros md ms Hms. cbn in Hms. unfold Examples.find_file in Hms. cbn in Hms.
    repeat case_bool_decide; inversion Hms; subst ms;
      apply list_elem_of_In; cbn; tauto.
  - apply elem_of_dom. vm_compute. eauto.
Defined.

(** C9, as stated, fails: [quiet.py] deletes its [__name__]; discovery
    catalogs it under [quiet], and [has] is false for [__name__] there, while
    it is true for [__doc__]. *)
Lemma cataloged_plugin_without_name :
  (findcandidate_files MoreExamples.name_deleted (Examples.start ".py")).2 = Ok tt /\
  get_plugin
    (self (findcandidate_files MoreExamples.name_deleted (Examples.start ".py")).1)
    "quiet"
  = Some (Module_ "quiet.py" "/app/Plugins/quiet.py") /\
  has (self (findcandidate_files MoreExamples.name_deleted (Examples.start ".py")).1)
    "quiet" "__name__" = Some false /\
  has (self (findcandidate_files MoreExamples.name_deleted (Examples.start ".py")).1)
    "quiet" "__doc__" = Some true.
Proof. repeat split; vm_compute; reflexivity. Qed.

(** ** Identifiers *)

Section ListFacts.

Lemma elem_of_List_filter {A : Type} (f : A -> bool) (l : list A) (x : A) :
  x ∈ List.filter f l <-> x ∈ l /\ f x = true.
Proof. rewrite !list_elem_of_In. apply filter_In. Qed.

Lemma NoDup_List_filter {A : Type} (f : A -> bool) (l : list A) :
  NoDup l -> NoDup (List.filter f l).
Proof.
  induction 1 as [|x l Hx Hnd IH]; simpl; [constructor|].
  destruct (f x); [|exact IH].
  constructor; [|exact IH]. intros [H _]%elem_of_List_filter. by apply Hx.
Qed.

Lemma update_all_lookup_elem {V : Type} (kvs : list (string * V))
    (d : gmap string V) (k : string) :
  k ∈ kvs.*1 -> exists v, (k, v) ∈ kvs /\ update_all kvs d !! k = Some v.
Proof.
  revert d. induction kvs as [|[k' v'] kvs IH]; intros d Hk.
  - by apply elem_of_nil in Hk.
  - change (update_all ((k', v') :: kvs) d) with (update_all kvs (<[k':=v']> d)).
    destruct (decide (k ∈ kvs.*1)) as [Hin|Hout].
    + destruct (IH (<[k':=v']> d) Hin) as (v & Hv & Hl).
      exists v. split; [apply elem_of_cons; by right | exact Hl].
    + rewrite fmap_cons in Hk. apply elem_of_cons in Hk as [Hk|Hk]; [|contradiction].
      cbn in Hk. subst k'. exists v'. split; [apply elem_of_cons; by left|].
      rewrite update_all_lookup_None by exact Hout. apply lookup_insert_eq.
Qed.

End ListFacts.

(** The manager of [p] is configured with an extension that is a dot
    followed by characters none of which is a dot, a wildcard or a
    separator; the entries of the directory have plain names, and each one
    that ends with the extension has a character other than a dot before
    it. *)
Section SingleDotExtension.

Variables (w : world) (p : process) (suffix : string).

Hypothesis ext_dot : plug_ext (self p) = String extsep suffix.
Hypothesis ext_last : Str.mem extsep suffix = false.
Hypothesis ext_literal : literal_ext (plug_ext (self p)) = true.
Hypothesis names_plain :
  Forall (fun n => Str.mem sep n = false) (os_scandir w (plugin_dir (self p))).
Hypothesis names_stem :
  Forall (fun n => has_stem (strip_ext (plug_ext (self p)) n) = true)
         (matching w (self p)).

Lemma matching_elem (n : string) :
  n ∈ matching w (self p) ->
  Str.mem sep n = false /\
  has_stem (strip_ext (plug_ext (self p)) n) = true /\
  n = strip_ext (plug_ext (self p)) n +:+ plug_ext (self p).
Proof.
  intros Hn. split; [|split].
  - apply elem_of_List_filter in Hn as [Hn _].
    by apply (proj1 (Forall_forall _ _) names_plain).
  - by apply (proj1 (Forall_forall _ _) names_stem).
  - apply elem_of_List_filter in Hn as [_ Hn].
    apply endswith_inv in Hn as [stem Hn].
    rewrite Hn at 2. by rewrite strip_ext_app.
Qed.

(** For such a name [splitext] removes the configured extension. *)
Lemma identifier_strip_ext (n : string) :
  n ∈ matching w (self p) ->
  os_path_split_tail (joinpath (plugin_dir (self p)) n) = n /\
  identifier (joinpath (plugin_dir (self p)) n) = strip_ext (plug_ext (self p)) n.
Proof.
  intros Hn. destruct (matching_elem n Hn) as (Hsep & Hstem & Heq).
  assert (os_path_split_tail (joinpath (plugin_dir (self p)) n) = n) as Htail
    by (by apply split_tail_joinpath).
  split; [exact Htail|].
  unfold identifier. rewrite Htail.
  set (stem := strip_ext (plug_ext (self p)) n) in *.
  rewrite Heq, ext_dot.
  rewrite splitext_last_dot.
  - by rewrite Hstem.
  - by rewrite <- ext_dot, <- Heq.
  - exact ext_last.
Qed.

Lemma candidates_matching :
  candidates w (self p) = map (joinpath (plugin_dir (self p))) (matching w (self p)).
Proof. apply glob_matching, ext_literal. Qed.

Lemma tails_matching :
  map os_path_split_tail (candidates w (self p)) = matching w (self p).
Proof.
  rewrite candidates_matching.
  assert (forall l, (forall n, n ∈ l -> n ∈ matching w (self p)) ->
                    map os_path_split_tail (map (joinpath (plugin_dir (self p))) l) = l)
    as H; [|by apply H].
  induction l as [|n l IH]; intros Hl; [reflexivity|].
  simpl. rewrite IH by (intros n' Hn'; apply Hl, elem_of_cons; by right).
  f_equal. apply identifier_strip_ext, Hl, elem_of_cons. by left.
Qed.

Lemma identifiers_matching :
  map identifier (candidates w (self p))
  = map (strip_ext (plug_ext (self p))) (matching w (self p)).
Proof.
  rewrite candidates_matching.
  assert (forall l, (forall n, n ∈ l -> n ∈ matching w (self p)) ->
                    map identifier (map (joinpath (plugin_dir (self p))) l)
                    = map (strip_ext (plug_ext (self p))) l)
    as H; [|by apply H].
  induction l as [|n l IH]; intros Hl; [reflexivity|].
  simpl. rewrite IH by (intros n' Hn'; apply Hl, elem_of_cons; by right).
  f_equal. apply identifier_strip_ext, Hl, elem_of_cons. by left.
Qed.

(** Distinct names have distinct identifiers. *)
Lemma identifiers_NoDup :
  NoDup (os_scandir w (plugin_dir (self p))) ->
  NoDup (map (strip_ext (plug_ext (self p))) (matching w (self p))).
Proof.
  intros Hnd. apply (NoDup_fmap_2_strong (strip_ext (plug_ext (self p)))).
  - intros n1 n2 H1 H2 Heq.
    destruct (matching_elem n1 H1) as (_ & _ & E1).
    destruct (matching_elem n2 H2) as (_ & _ & E2).
    rewrite E1, E2. by rewrite Heq.
  - by apply NoDup_List_filter.
Qed.

End SingleDotExtension.

(** C5, as amended: the identifier under which the entry of a candidate is
    stored is what [os.path.splitext] leaves of its base name: the name up
    to its last dot, or the whole name when only dots precede that dot.  It
    is the base name with the configured extension removed when the
    extension is a dot followed by characters none of which is a dot, and
    the name has a character other than a dot before the extension. *)
Theorem identifier_of_candidate (w : world) (p p' : process) (x : string) :
  findcandidate_files w p = (p', Ok tt) ->
  x ∈ candidates w (self p) ->
  identifier x = (splitext (os_path_split_tail x)).1 /\
  identifier x ∈ dom (catalog (self p')) /\
  (forall suffix,
     plug_ext (self p) = String extsep suffix ->
     Str.mem extsep suffix = false ->
     literal_ext (plug_ext (self p)) = true ->
     Forall (fun n => Str.mem sep n = false) (os_scandir w (plugin_dir (self p))) ->
     Forall (fun n => has_stem (strip_ext (plug_ext (self p)) n) = true)
            (matching w (self p)) ->
     identifier x = strip_ext (plug_ext (self p)) (os_path_split_tail x) /\
     exists en,
       load_entry w (self p) (os_path_split_tail x) = Ok en /\
       catalog (self p') !! strip_ext (plug_ext (self p)) (os_path_split_tail x)
       = Some en).
Proof.
  intros Hrun Hx. apply findcandidate_files_Ok in Hrun as [Hok ->].
  split; [reflexivity|]. split.
  - cbn. rewrite update_all_dom, (committed_all_ok w (self p) _ Hok).
    apply elem_of_union_l, elem_of_list_to_set, list_elem_of_fmap. by exists x.
  - intros suffix Hdot Hlast Hlit Hplain Hstem.
    pose proof (candidates_matching w p Hlit) as Hc.
    rewrite Hc in Hx. apply list_elem_of_fmap in Hx as (n & -> & Hn).
    destruct (identifier_strip_ext w p suffix Hdot Hlast Hplain Hstem n Hn)
      as [Htail Hid].
    rewrite Htail. split; [exact Hid|].
    assert (joinpath (plugin_dir (self p)) n ∈ candidates w (self p)) as Hin.
    { rewrite Hc. apply list_elem_of_fmap. by exists n. }
    pose proof (proj1 (Forall_forall _ _) Hok _ Hin) as Hl.
    apply loads_ok_entry in Hl as [en Hen]. rewrite Htail in Hen.
    exists en. split; [exact Hen|]. cbn.
    destruct (update_all_lookup_elem (committed w (self p) (candidates w (self p)))
                (catalog (self p)) (strip_ext (plug_ext (self p)) n))
      as (v & Hv & Hlook).
    { rewrite (committed_all_ok w (self p) _ Hok), <- Hid.
      apply list_elem_of_fmap. by exists (joinpath (plugin_dir (self p)) n). }
    rewrite Hlook. f_equal.
    apply committed_elem in Hv as (x' & Hx' & Hk & Hl').
    rewrite Hc in Hx'. apply list_elem_of_fmap in Hx' as (n' & -> & Hn').
    destruct (identifier_strip_ext w p suffix Hdot Hlast Hplain Hstem n' Hn')
      as [Htail' Hid'].
    rewrite Htail' in Hl'. rewrite Hid' in Hk.
    destruct (matching_elem w p Hplain Hstem n Hn) as (_ & _ & E).
    destruct (matching_elem w p Hplain Hstem n' Hn') as (_ & _ & E').
    assert (n = n') as <- by (rewrite E, E'; by rewrite Hk).
    congruence.
Qed.

(** The candidate [alpha.py] of [Examples.two_plugins], with the extension
    [.py]. *)
Lemma identifier_of_candidate_witness :
  identifier "/app/Plugins/alpha.py" = strip_ext ".py" "alpha.py" /\
  exists en,
    load_entry Examples.two_plugins (self (Examples.start ".py")) "alpha.py" = Ok en /\
    catalog (self (findcandidate_files Examples.two_plugins (Examples.start ".py")).1)
      !! strip_ext ".py" "alpha.py"
    = Some en.
Proof.
  destruct (identifier_of_candidate Examples.two_plugins (Examples.start ".py")
              (findcandidate_files Examples.two_plugins (Examples.start ".py")).1
              "/app/Plugins/alpha.py")
    as (_ & _ & H).
  - vm_compute. reflexivity.
  - apply list_elem_of_In. vm_compute. tauto.
  - apply (H "py").
    + reflexivity.
    + reflexivity.
    + reflexivity.
    + vm_compute. repeat constructor.
    + vm_compute. repeat constructor.
Defined.

(** C5, as stated, fails.  With the extension [.plugin.py] the entry of
    [alpha.plugin.py] is stored under [alpha.plugin], and nothing is stored
    under [alpha]; with the extension [.py] the entry of the file [.py] is
    stored under [.py], not under the empty name. *)
Lemma identifier_keeps_part_of_extension :
  (findcandidate_files Examples.two_dots (Examples.start ".plugin.py")).2 = Ok tt /\
  strip_ext ".plugin.py" "alpha.plugin.py" = "alpha" /\
  get_plugin (self (findcandidate_files Examples.two_dots (Examples.start ".plugin.py")).1)
    "alpha" = None /\
  get_plugin (self (findcandidate_files Examples.two_dots (Examples.start ".plugin.py")).1)
    "alpha.plugin"
  = Some (Module_ "alpha.plugin.py" "/app/Plugins/alpha.plugin.py") /\
  (findcandidate_files Examples.dot_files (Examples.start ".py")).2 = Ok tt /\
  strip_ext ".py" ".py" = "" /\
  get_plugin (self (findcandidate_files Examples.dot_files (Examples.start ".py")).1) ""
  = None /\
  identifier "/app/Plugins/.py" = ".py".
Proof. repeat split; vm_compute; reflexivity. Qed.

(** C4, as amended: let the extension be a dot followed by characters none
    of which is a dot, and let every name in the directory that ends with it
    have a character other than a dot before it.  Then a call that returns
    has recorded and loaded the files whose names end with the extension
    and no other file, and has committed one entry for each of these [N]
    files, under its base name without the extension: the keys it adds to
    the catalog are these [N] names, and an empty catalog has [N] entries
    afterwards. *)
Theorem discovery_one_entry_per_file
    (w : world) (p p' : process) (suffix : string) (N : nat) :
  plug_ext (self p) = String extsep suffix ->
  Str.mem extsep suffix = false ->
  literal_ext (plug_ext (self p)) = true ->
  NoDup (os_scandir w (plugin_dir (self p))) ->
  Forall (fun n => Str.mem sep n = false) (os_scandir w (plugin_dir (self p))) ->
  Forall (fun n => has_stem (strip_ext (plug_ext (self p)) n) = true)
         (matching w (self p)) ->
  length (matching w (self p)) = N ->
  findcandidate_files w p = (p', Ok tt) ->
  candidate_files (self p')
  = map (joinpath (plugin_dir (self p))) (matching w (self p)) /\
  loads p' = loads p ++ matching w (self p) /\
  dom (catalog (self p'))
  = list_to_set (map (strip_ext (plug_ext (self p))) (matching w (self p)))
    ∪ dom (catalog (self p)) /\
  size (list_to_set (map (strip_ext (plug_ext (self p))) (matching w (self p)))
        : gset string) = N /\
  (catalog (self p) = ∅ -> size (catalog (self p')) = N) /\
  (forall n, n ∈ matching w (self p) ->
     exists en, load_entry w (self p) n = Ok en /\
                catalog (self p') !! strip_ext (plug_ext (self p)) n = Some en).
Proof.
  intros Hdot Hlast Hlit Hnd Hplain Hstem HN Hrun.
  apply findcandidate_files_Ok in Hrun as [Hok ->].
  pose proof (identifiers_NoDup w p Hplain Hstem Hnd) as Hkeys.
  pose proof (identifiers_matching w p suffix Hdot Hlast Hlit Hplain Hstem) as Hids.
  pose proof (committed_all_ok w (self p) _ Hok) as Hcom. rewrite Hids in Hcom.
  assert (size (list_to_set (map (strip_ext (plug_ext (self p))) (matching w (self p)))
                : gset string) = N) as Hsize.
  { rewrite size_list_to_set by exact Hkeys. by rewrite length_map. }
  split; [|split; [|split; [|split; [|split]]]].
  - cbn. apply candidates_matching, Hlit.
  - cbn. by rewrite (tails_matching w p suffix Hdot Hlast Hlit Hplain Hstem).
  - cbn. by rewrite update_all_dom, Hcom.
  - exact Hsize.
  - intros Hempty. cbn.
    by rewrite <- size_dom, update_all_dom, Hcom, Hempty, dom_empty_L,
      (right_id_L ∅ (∪)).
  - intros n Hn.
    destruct (identifier_strip_ext w p suffix Hdot Hlast Hplain Hstem n Hn)
      as [Htail Hid].
    assert (joinpath (plugin_dir (self p)) n ∈ candidates w (self p)) as Hin.
    { rewrite (candidates_matching w p Hlit). apply list_elem_of_fmap. by exists n. }
    pose proof (proj1 (Forall_forall _ _) Hok _ Hin) as Hl.
    apply loads_ok_entry in Hl as [en Hen].
    exists en. split; [by rewrite Htail in Hen|]. cbn.
    apply update_all_lookup_NoDup; [by rewrite Hcom|].
    rewrite <- Hid. by apply committed_elem_ok.
Qed.

(** The directory of [Examples.two_plugins]: two files end with [.py], and
    one does not. *)
Lemma discovery_one_entry_per_file_witness :
  candidate_files (self (findcandidate_files Examples.two_plugins (Examples.start ".py")).1)
  = map (joinpath Examples.dir) ["alpha.py"; "beta.py"] /\
  loads (findcandidate_files Examples.two_plugins (Examples.start ".py")).1
  = ["alpha.py"; "beta.py"] /\
  dom (catalog (self (findcandidate_files Examples.two_plugins (Examples.start ".py")).1))
  = ({["alpha"; "beta"]} : gset string) /\
  size (catalog (self (findcandidate_files Examples.two_plugins (Examples.start ".py")).1))
  = 2%nat.
Proof.
  destruct (discovery_one_entry_per_file Examples.two_plugins (Examples.start ".py")
              (findcandidate_files Examples.two_plugins (Examples.start ".py")).1
              "py" 2)
    as (H1 & H2 & H3 & _ & H5 & _).
  - reflexivity.
  - reflexivity.
  - reflexivity.
  - vm_compute. repeat constructor; rewrite list_elem_of_In; cbn; intuition discriminate.
  - vm_compute. repeat constructor.
  - vm_compute. repeat constructor.
  - reflexivity.
  - vm_compute. reflexivity.
  - split; [exact H1|]. split; [exact H2|]. split; [|by apply H5].
    rewrite H3. cbn. by rewrite dom_empty_L, !(right_id_L ∅ (∪)).
Defined.

(** C4, as stated, fails.  With the extension [.plugin.py] the two files of
    the directory are keyed [alpha.plugin] and [beta.plugin]; with the
    extension [.py] the two files [.py] and [.py.py] leave one entry. *)
Lemma entries_not_keyed_or_counted_by_extension :
  (findcandidate_files Examples.two_dots (Examples.start ".plugin.py")).2 = Ok tt /\
  matching Examples.two_dots (self (Examples.start ".plugin.py"))
  = ["alpha.plugin.py"; "beta.plugin.py"] /\
  map (strip_ext ".plugin.py") ["alpha.plugin.py"; "beta.plugin.py"] = ["alpha"; "beta"] /\
  (map_to_list (catalog (self (findcandidate_files Examples.two_dots
                                 (Examples.start ".plugin.py")).1))).*1
  = ["alpha.plugin"; "beta.plugin"] /\
  (findcandidate_files Examples.dot_files (Examples.start ".py")).2 = Ok tt /\
  matching Examples.dot_files (self (Examples.start ".py")) = [".py"; ".py.py"] /\
  size (catalog (self (findcandidate_files Examples.dot_files (Examples.start ".py")).1))
  = 1%nat.
Proof. repeat split; vm_compute; reflexivity. Qed.

(** ** Errors of discovery *)

Section ErrorMessages.

Lemma startswith_app (p t : string) : Str.startswith p (p +:+ t) = true.
Proof.
  induction p as [|a p IH]; [reflexivity|].
  rewrite app_cons. simpl. by rewrite bool_decide_eq_true_2, IH.
Qed.

Lemma contains_app (s p t : string) : Str.contains p (s +:+ (p +:+ t)) = true.
Proof.
  induction s as [|a s IH].
  - rewrite app_empty_l. destruct (p +:+ t) eqn:E; simpl; rewrite <- E;
      by rewrite startswith_app.
  - rewrite app_cons. simpl. rewrite IH. apply orb_true_r.
Qed.

Lemma joinpath_suffix (dir name : string) :
  exists prefix, joinpath dir name = prefix +:+ name.
Proof.
  unfold joinpath. destruct (Str.startswith "/" name).
  - by exists EmptyString.
  - case_bool_decide.
    + by exists dir.
    + exists (dir +:+ "/"). by rewrite app_assoc_str.
Qed.

(** The two errors the code words itself name the file: the not-found error
    of the loader, and the import error that replaces an
    [AttributeError]. *)
Lemma handled_errors_name_file (w : world) (m : PlugInMgr) (name : string) (e : exn) :
  load_entry w m name = Raise e ->
  path_exists w (joinpath (plugin_dir m) name) = false \/ exn_cls e = AttributeError ->
  Str.contains name (exn_msg (reraise name e)) = true.
Proof.
  intros Hload [Hmissing|Hattr].
  - unfold load_entry, get_installed_config in Hload. rewrite Hmissing in Hload.
    cbn in Hload. inversion Hload; subst e. cbn.
    destruct (joinpath_suffix (plugin_dir m) name) as [prefix ->].
    rewrite <- (app_empty_r (prefix +:+ name)), app_assoc_str, <- app_assoc_str.
    apply contains_app.
  - unfold reraise. rewrite Hattr. rewrite decide_True by reflexivity. cbn.
    rewrite <- (app_empty_r name) at 2. apply contains_app.
Qed.

End ErrorMessages.

(** C6 does not hold of the code: [bad.py] raises [ValueError("boom")] at
    its top level, the [except] clause lets it pass, and the error that
    ends the call does not contain the name of the file. *)
Theorem value_error_leaves_file_unnamed :
  loads (findcandidate_files Examples.value_error (Examples.start ".py")).1
  = ["a.py"; "bad.py"] /\
  (findcandidate_files Examples.value_error (Examples.start ".py")).2
  = Raise (Exn (OtherError "ValueError") "boom") /\
  Str.contains "bad.py" "boom" = false /\
  (findcandidate_files Examples.attribute_error (Examples.start ".py")).2
  = Raise (Exn ImportError "Unable to import Plugin Module - broken.py").
Proof. repeat split; vm_compute; reflexivity. Qed.

(** * Further properties of the code *)

(** ** Base names and identifiers *)

Section BaseNames.

Lemma take_drop (n : nat) (s : string) : Str.take n s +:+ Str.drop n s = s.
Proof.
  revert s. induction n as [|n IH]; intros s; [by destruct s|].
  destruct s as [|a s]; [reflexivity|]. simpl. by rewrite app_cons, IH.
Qed.

(** A string that contains [c] splits at its last [c]. *)
Lemma last_occurrence (c : ascii) (s : string) :
  Str.mem c s = true ->
  exists a b, s = a +:+ String c b /\ Str.mem c b = false.
Proof.
  induction s as [|x s IH]; simpl; [discriminate|]. intros H.
  destruct (Str.mem c s) eqn:Hs.
  - destruct (IH eq_refl) as (a & b & -> & Hb). by exists (String x a), b.
  - rewrite orb_false_r in H. apply bool_decide_eq_true in H. subst x.
    by exists EmptyString, s.
Qed.

(** The base name of a path has no separator in it. *)
Lemma split_tail_plain (x : string) : Str.mem sep (os_path_split_tail x) = false.
Proof.
  unfold os_path_split_tail, Str.slice_from.
  destruct (Str.mem sep x) eqn:Hx.
  - apply last_occurrence in Hx as (a & b & -> & Hb).
    rewrite rfind_last by exact Hb.
    pose proof (len_nonneg a).
    replace (Z.to_nat (Str.len a + 1)) with (Z.to_nat (Str.len (a +:+ "/")))
      by (by rewrite len_app).
    change (a +:+ String sep b) with (a +:+ ("/" +:+ b)).
    by rewrite <- app_assoc_str, drop_app_len.
  - by rewrite rfind_notin.
Qed.

Lemma has_stem_take_nonempty (n : nat) (s : string) :
  has_stem (Str.take n s) = true -> (0 < n)%nat /\ s <> EmptyString.
Proof.
  destruct n as [|n]; [by destruct s|].
  destruct s as [|a s]; [discriminate|]. intros _. split; [lia|discriminate].
Qed.

Lemma drop_nonempty (n : nat) (s : string) :
  Str.drop n s <> EmptyString -> s <> EmptyString.
Proof. destruct n, s; simpl; congruence. Qed.

Lemma rfind_lower_bound (c : ascii) (s : string) : -1 <= Str.rfind c s.
Proof.
  destruct (Str.mem c s) eqn:Hs.
  - apply last_occurrence in Hs as (a & b & -> & Hb).
    rewrite rfind_last by exact Hb. pose proof (len_nonneg a). lia.
  - rewrite rfind_notin by exact Hs. lia.
Qed.

(** [splitext] cuts its argument in two; the second part is empty or begins
    at a dot and has no other dot; the first part is empty only when the
    argument is. *)
Lemma splitext_parts (p : string) :
  (splitext p).1 +:+ (splitext p).2 = p /\
  ((splitext p).2 = EmptyString \/
   exists s, (splitext p).2 = String extsep s /\ Str.mem extsep s = false) /\
  (p <> EmptyString -> (splitext p).1 <> EmptyString).
Proof.
  unfold splitext.
  destruct ((Str.rfind sep p <? Str.rfind extsep p)
            && has_stem (Str.slice_to (Str.rfind extsep p - (Str.rfind sep p + 1))
                           (Str.slice_from (Str.rfind sep p + 1) p))) eqn:Hc;
    cbn [fst snd].
  2:{ split; [apply app_empty_r|]. split; [by left|done]. }
  apply andb_true_iff in Hc as [Hlt Hstem]. apply Z.ltb_lt in Hlt.
  unfold Str.slice_to, Str.slice_from in *.
  split; [apply take_drop|]. split.
  - right. pose proof (rfind_lower_bound sep p) as Hsep.
    destruct (Str.mem extsep p) eqn:Hp.
    + apply last_occurrence in Hp as (a & b & -> & Hb).
      rewrite rfind_last by exact Hb. rewrite drop_app_len. by exists b.
    + rewrite (rfind_notin extsep) in Hlt by exact Hp. lia.
  - intros _. apply has_stem_take_nonempty in Hstem as [Hn Hne].
    apply drop_nonempty in Hne. pose proof (rfind_lower_bound sep p).
    destruct p as [|a p]; [done|].
    destruct (Z.to_nat (Str.rfind extsep (String a p))) eqn:Hd; [lia|discriminate].
Qed.

End BaseNames.

(** X12: the identifier of a candidate is a prefix of its base name: what
    is cut off is nothing, or a dot followed by characters none of which is
    a dot.  The identifier has no separator in it, and it is empty only for
    an empty base name. *)
Theorem identifier_prefix_of_base_name (x : string) :
  (exists suffix,
     os_path_split_tail x = identifier x +:+ suffix /\
     (suffix = EmptyString \/
      exists s, suffix = String extsep s /\ Str.mem extsep s = false)) /\
  Str.mem sep (identifier x) = false /\
  (os_path_split_tail x <> EmptyString -> identifier x <> EmptyString).
Proof.
  destruct (splitext_parts (os_path_split_tail x)) as (Hcut & Hsuffix & Hne).
  split; [|split].
  - exists (splitext (os_path_split_tail x)).2. by split.
  - pose proof (split_tail_plain x) as Hplain.
    rewrite <- Hcut, mem_app in Hplain. by apply orb_false_iff in Hplain as [H _].
  - exact Hne.
Qed.

(** ** Any discovery call *)

Section AnyCall.

Variable w : world.

(** What a call does to the process, whether it returns or raises: [done]
    is the candidates it went through, of which [ok] loaded. *)
Lemma findcandidate_files_shape (p : process) :
  exists ok rest,
    (findcandidate_files w p).1
    = settled (entered p) (ok ++ rest)
        (update_all (committed w (self p) ok) (catalog (self p)))
        (loads p ++ map os_path_split_tail (ok ++ rest)) /\
    Forall (fun x => loads_ok w (self p) x = true) ok /\
    (rest = [] /\ candidates w (self p) = ok /\
     (findcandidate_files w p).2 = Ok tt
     \/
     exists x post e,
       rest = [x] /\ candidates w (self p) = ok ++ x :: post /\
       load_entry w (self p) (os_path_split_tail x) = Raise e /\
       (findcandidate_files w p).2 = Raise (reraise (os_path_split_tail x) e)).
Proof.
  destruct (findcandidate_files_cases w p)
    as [[Hok Heq]|(pre & x & post & e & Hc & Hpre & Hx & Heq)]; rewrite Heq.
  - exists (candidates w (self p)), []. rewrite app_nil_r.
    split; [reflexivity|]. split; [exact Hok|]. by left.
  - exists pre, [x]. split; [reflexivity|]. split; [exact Hpre|].
    right. by exists x, post, e.
Qed.

Lemma findcandidate_files_config (p : process) :
  plugin_dir (self (findcandidate_files w p).1) = plugin_dir (self p) /\
  plug_ext (self (findcandidate_files w p).1) = plug_ext (self p) /\
  sys_path (findcandidate_files w p).1 = sys_path p ++ [plugin_dir (self p)].
Proof.
  destruct (findcandidate_files_shape p) as (ok & rest & -> & _). by cbn.
Qed.

Lemma committed_app (m : PlugInMgr) (l1 l2 : list string) :
  committed w m (l1 ++ l2) = committed w m l1 ++ committed w m l2.
Proof.
  induction l1 as [|x l1 IH]; [reflexivity|].
  rewrite <- app_comm_cons, !committed_cons, IH.
  by destruct (load_entry w m (os_path_split_tail x)).
Qed.

(** A module that the loader returns carries the file name as its name and
    the resolved path as its file; the path existed, importlib had a loader
    for it, and its code ran to the end. *)
Lemma get_installed_config_Ok (m : PlugInMgr) (f : string) (md : module) :
  get_installed_config w m f = Ok md ->
  md = Module_ f (joinpath (plugin_dir m) f) /\
  path_exists w (joinpath (plugin_dir m) f) = true /\
  has_loader w (joinpath (plugin_dir m) f) = true /\
  run_toplevel w md = Ok tt.
Proof.
  unfold get_installed_config, spec_from_file_location.
  destruct (path_exists w (joinpath (plugin_dir m) f)); cbn; [|discriminate].
  destruct (has_loader w (joinpath (plugin_dir m) f)); cbn; [|discriminate].
  destruct (run_toplevel w _) as [[]|e] eqn:Hrun; cbn; [|discriminate].
  intros H. inversion H; subst md. by repeat split.
Qed.

(** An entry found in the catalog after a call was there before, or is the
    entry of a candidate the call recorded. *)
Lemma catalog_entry_source (p : process) (id : string) (e : entry) :
  catalog (self (findcandidate_files w p).1) !! id = Some e ->
  catalog (self p) !! id = Some e \/
  exists x, x ∈ candidate_files (self (findcandidate_files w p).1) /\
            id = identifier x /\
            load_entry w (self p) (os_path_split_tail x) = Ok e.
Proof.
  destruct (findcandidate_files_shape p) as (ok & rest & -> & _). cbn.
  intros [H|H]%update_all_lookup_Some; [right|by left].
  apply committed_elem in H as (x & Hx & Hid & Hl).
  exists x. split; [apply elem_of_app; by left|by split].
Qed.

End AnyCall.

Section UpdateLast.

Context {V : Type}.

(** The last assignment to a key is the one that stays. *)
Lemma update_all_lookup_last (l1 l2 : list (string * V)) (d : gmap string V)
    (k : string) (v : V) :
  k ∉ l2.*1 -> update_all (l1 ++ (k, v) :: l2) d !! k = Some v.
Proof.
  intros Hk. rewrite update_all_app.
  change (update_all ((k, v) :: l2) (update_all l1 d))
    with (update_all l2 (<[k:=v]> (update_all l1 d))).
  rewrite update_all_lookup_None by exact Hk. apply lookup_insert_eq.
Qed.

End UpdateLast.

(** X1: a discovery call, whether it returns or raises, removes no
    identifier from the catalog, and leaves the entry of every identifier
    that is not the identifier of a candidate it recorded as it was. *)
Theorem discovery_keeps_other_entries (w : world) (p : process) :
  dom (catalog (self p)) ⊆ dom (catalog (self (findcandidate_files w p).1)) /\
  (forall k,
     k ∉ map identifier (candidate_files (self (findcandidate_files w p).1)) ->
     catalog (self (findcandidate_files w p).1) !! k = catalog (self p) !! k).
Proof.
  destruct (findcandidate_files_shape w p) as (ok & rest & -> & Hok & _). cbn.
  split.
  - rewrite update_all_dom. apply union_subseteq_r.
  - intros k Hk. apply update_all_lookup_None.
    rewrite (committed_all_ok w (self p) ok Hok).
    intros Hin. apply Hk. rewrite map_app. apply elem_of_app. by left.
Qed.

(** X2: a discovery call, whether it returns or raises, leaves the
    directory and the extension of the manager as they are and appends the
    directory to [sys.path]; nothing is taken off again, so a second call
    appends it a second time. *)
Theorem discovery_appends_search_path (w1 w2 : world) (p : process) :
  plugin_dir (self (findcandidate_files w1 p).1) = plugin_dir (self p) /\
  plug_ext (self (findcandidate_files w1 p).1) = plug_ext (self p) /\
  sys_path (findcandidate_files w1 p).1 = sys_path p ++ [plugin_dir (self p)] /\
  sys_path (findcandidate_files w2 (findcandidate_files w1 p).1).1
  = sys_path p ++ [plugin_dir (self p); plugin_dir (self p)].
Proof.
  destruct (findcandidate_files_config w1 p) as (Hd & He & Hs).
  destruct (findcandidate_files_config w2 (findcandidate_files w1 p).1) as (_ & _ & Hs2).
  repeat split; try assumption.
  rewrite Hs2, Hs, Hd, <- app_assoc. reflexivity.
Qed.


(** X5: after a discovery call, whether it returned or raised, the
    recorded candidates are a prefix of the candidates of the directory, in
    their order, and the files handed to the loader during the call are the
    base names of the recorded candidates, one for one. *)
Theorem recorded_candidates_are_the_loaded_ones (w : world) (p : process) :
  exists rest,
    candidates w (self p)
    = candidate_files (self (findcandidate_files w p).1) ++ rest /\
    loads (findcandidate_files w p).1
    = loads p ++ map os_path_split_tail
                     (candidate_files (self (findcandidate_files w p).1)) /\
    ((findcandidate_files w p).2 = Ok tt -> rest = []).
Proof.
  destruct (findcandidate_files_shape w p)
    as (ok & rest & -> & _ & [(-> & Hc & Hr)|(x & post & e & -> & Hc & _ & Hr)]); cbn.
  - exists []. rewrite !app_nil_r. by repeat split.
  - exists post. rewrite <- app_assoc. split; [exact Hc|]. split; [reflexivity|].
    rewrite Hr. discriminate.
Qed.

(** X4: when no entry of the directory ends with the extension (the
    directory is empty or missing, say), a discovery call returns; it has
    loaded nothing, the list of candidates is empty, and the catalog is the
    one from before the call, stale entries included. *)
Theorem discovery_without_candidates (w : world) (p : process) :
  literal_ext (plug_ext (self p)) = true ->
  Forall (fun n => Str.endswith (plug_ext (self p)) n = false)
         (os_scandir w (plugin_dir (self p))) ->
  (findcandidate_files w p).2 = Ok tt /\
  candidate_files (self (findcandidate_files w p).1) = [] /\
  catalog (self (findcandidate_files w p).1) = catalog (self p) /\
  loads (findcandidate_files w p).1 = loads p.
Proof.
  intros Hlit Hnone.
  assert (candidates w (self p) = []) as Hc.
  { unfold candidates. rewrite (glob_matching w (self p) Hlit). unfold matching.
    induction Hnone as [|n l Hn _ IH]; [reflexivity|]. simpl. by rewrite Hn. }
  rewrite findcandidate_files_loop, Hc. by cbn.
Qed.

(** The directory of [MoreExamples.discovered] is emptied, and discovery is
    called again: [alpha] and [beta] stay in the catalog. *)
Lemma discovery_without_candidates_witness :
  (findcandidate_files MoreExamples.empty_dir MoreExamples.discovered).2 = Ok tt /\
  candidate_files
    (self (findcandidate_files MoreExamples.empty_dir MoreExamples.discovered).1) = [] /\
  catalog (self (findcandidate_files MoreExamples.empty_dir MoreExamples.discovered).1)
  = catalog (self MoreExamples.discovered) /\
  loads (findcandidate_files MoreExamples.empty_dir MoreExamples.discovered).1
  = loads MoreExamples.discovered.
Proof.
  apply (discovery_without_candidates MoreExamples.empty_dir MoreExamples.discovered).
  - reflexivity.
  - vm_compute. constructor.
Defined.

(** X6: when two candidates of a call that returns have the same
    identifier, the entry of the later one replaces the entry of the
    earlier one: the catalog holds, under the identifier of a candidate
    that no later candidate shares, the module loaded from that candidate,
    named by its full file name. *)
Theorem last_candidate_with_identifier_wins
    (w : world) (p : process) (pre : list string) (x : string) (post : list string) :
  (findcandidate_files w p).2 = Ok tt ->
  candidates w (self p) = pre ++ x :: post ->
  identifier x ∉ map identifier post ->
  exists e,
    load_entry w (self p) (os_path_split_tail x) = Ok e /\
    catalog (self (findcandidate_files w p).1) !! identifier x = Some e /\
    get_plugin (self (findcandidate_files w p).1) (identifier x)
    = Some (Module_ (os_path_split_tail x)
              (joinpath (plugin_dir (self p)) (os_path_split_tail x))).
Proof.
  intros Hret Hc Hlast.
  destruct (findcandidate_files_cases w p)
    as [[Hok Heq]|(pre' & x' & post' & e' & _ & _ & _ & Heq)];
    rewrite Heq in *; [|discriminate].
  rewrite Hc in *. cbn.
  pose proof Hok as Hall.
  apply Forall_app in Hok as [_ Hok]. apply Forall_cons in Hok as [Hx Hpost].
  apply loads_ok_entry in Hx as [e He].
  assert (update_all (committed w (self p) (pre ++ x :: post)) (catalog (self p))
          !! identifier x = Some e) as Hlook.
  { rewrite committed_app, (committed_cons_ok w (self p) x post e He).
    apply update_all_lookup_last.
    by rewrite (committed_all_ok w (self p) post Hpost). }
  exists e. split; [exact He|]. split; [exact Hlook|].
  unfold get_plugin. cbn. rewrite Hlook. f_equal.
  apply load_entry_Ok in He as [Hcfg _].
  by apply get_installed_config_Ok in Hcfg as [-> _].
Qed.

(** The files [.py] and [.py.py] of [Examples.dot_files] share the
    identifier [.py]; the module in the catalog is that of [.py.py]. *)
Lemma last_candidate_with_identifier_wins_witness :
  exists e,
    load_entry Examples.dot_files (self (Examples.start ".py"))
      (os_path_split_tail "/app/Plugins/.py.py") = Ok e /\
    catalog (self (findcandidate_files Examples.dot_files (Examples.start ".py")).1)
      !! identifier "/app/Plugins/.py.py" = Some e /\
    get_plugin (self (findcandidate_files Examples.dot_files (Examples.start ".py")).1)
      (identifier "/app/Plugins/.py.py")
    = Some (Module_ (os_path_split_tail "/app/Plugins/.py.py")
              (joinpath (plugin_dir (self (Examples.start ".py")))
                 (os_path_split_tail "/app/Plugins/.py.py"))).
Proof.
  apply (last_candidate_with_identifier_wins Examples.dot_files (Examples.start ".py")
           ["/app/Plugins/.py"] "/app/Plugins/.py.py" []).
  - vm_compute. reflexivity.
  - vm_compute. reflexivity.
  - cbn. apply not_elem_of_nil.
Defined.

(** X7: at any time in the life of a manager, whatever the directory held
    at each call, every entry of the catalog is keyed by what [splitext]
    leaves of the name of its module, and the file of that module is the
    name of the module joined to the plugin directory. *)
Theorem catalog_handles_invariant (p : process) (id : string) (e : entry) :
  reachable (fun _ => True) p ->
  catalog (self p) !! id = Some e ->
  (splitext (mod_name (handle e))).1 = id /\
  mod_file (handle e) = joinpath (plugin_dir (self p)) (mod_name (handle e)) /\
  get_plugin (self p) id = Some (handle e).
Proof.
  intros Hreach. revert id e.
  assert (forall id e, catalog (self p) !! id = Some e ->
            (splitext (mod_name (handle e))).1 = id /\
            mod_file (handle e) = joinpath (plugin_dir (self p)) (mod_name (handle e)))
    as Hinv.
  { induction Hreach as [cwd d ext path|w p _ Hreach IH]; intros id e H.
    - cbn in H. by rewrite lookup_empty in H.
    - destruct (findcandidate_files_config w p) as (Hd & _ & _). rewrite Hd.
      destruct (catalog_entry_source w p id e H) as [Hold|(x & _ & -> & Hl)].
      + by apply IH.
      + apply load_entry_Ok in Hl as [Hcfg _].
        apply get_installed_config_Ok in Hcfg as [-> _]. by cbn. }
  intros id e H. destruct (Hinv id e H) as [H1 H2].
  split; [exact H1|]. split; [exact H2|]. unfold get_plugin. by rewrite H.
Qed.

(** The entry [alpha] of [MoreExamples.discovered]. *)
Lemma catalog_handles_invariant_witness :
  (splitext "alpha.py").1 = "alpha" /\
  get_plugin (self MoreExamples.discovered) "alpha"
  = Some (Module_ "alpha.py" "/app/Plugins/alpha.py").
Proof.
  destruct (catalog_handles_invariant MoreExamples.discovered "alpha"
              (Entry (Module_ "alpha.py" "/app/Plugins/alpha.py")
                 (dict (Examples.module_members "alpha.py"
                          [("VALUE", PyInt 42);
                           ("greet", PyOpaque "<function greet>")]))))
    as (H1 & _ & H3).
  - apply reachable_call; [exact I|apply reachable_init].
  - vm_compute. reflexivity.
  - split; [exact H1|exact H3].
Defined.


(** ** The errors of a call *)

Section FirstFailure.

Variables (w : world) (p : process) (pre : list string) (x : string)
          (post : list string).

Hypothesis Hcandidates : candidates w (self p) = pre ++ x :: post.
Hypothesis Hpre : Forall (fun y => loads_ok w (self p) y = true) pre.

(** The outcome of a call whose first failing candidate is [x]. *)
Lemma first_failure_outcome (e : exn) :
  load_entry w (self p) (os_path_split_tail x) = Raise e ->
  findcandidate_files w p
  = (settled (entered p) (pre ++ [x])
       (update_all (committed w (self p) pre) (catalog (self p)))
       (loads p ++ map os_path_split_tail (pre ++ [x])),
     Raise (reraise (os_path_split_tail x) e)).
Proof.
  intros Hx. rewrite findcandidate_files_loop, Hcandidates.
  rewrite (candidate_loop_first_failure w pre x post e).
  - by rewrite (committed_dir w _ (self p)).
  - eapply Forall_impl; [exact Hpre|]. intros y Hy.
    by rewrite (loads_ok_dir w _ (self p)).
  - by rewrite (load_entry_dir w _ (self p)).
Qed.

End FirstFailure.

(** X8: a candidate that exists and for which importlib has no loader (a
    file that is not Python source, say) ends the call with an import error
    that names it; it is not skipped, and the candidates after it are not
    loaded. *)
Theorem no_loader_raises_import_error
    (w : world) (p : process) (pre : list string) (x : string) (post : list string) :
  candidates w (self p) = pre ++ x :: post ->
  Forall (fun y => loads_ok w (self p) y = true) pre ->
  path_exists w (joinpath (plugin_dir (self p)) (os_path_split_tail x)) = true ->
  has_loader w (joinpath (plugin_dir (self p)) (os_path_split_tail x)) = false ->
  (findcandidate_files w p).2
  = Raise (Exn ImportError
             ("Unable to import Plugin Module - " +:+ os_path_split_tail x)) /\
  loads (findcandidate_files w p).1
  = loads p ++ map os_path_split_tail pre ++ [os_path_split_tail x].
Proof.
  intros Hc Hpre Hex Hno.
  assert (load_entry w (self p) (os_path_split_tail x)
          = Raise (Exn AttributeError "'NoneType' object has no attribute 'loader'"))
    as Hx.
  { unfold load_entry, get_installed_config, spec_from_file_location.
    by rewrite Hex, Hno. }
  rewrite (first_failure_outcome w p pre x post Hc Hpre _ Hx). cbn.
  split; [reflexivity|]. by rewrite map_app.
Qed.

(** Discovery with the extension [.txt] in [Examples.two_plugins] comes upon
    [notes.txt]. *)
Lemma no_loader_raises_import_error_witness :
  (findcandidate_files Examples.two_plugins (Examples.start ".txt")).2
  = Raise (Exn ImportError "Unable to import Plugin Module - notes.txt") /\
  loads (findcandidate_files Examples.two_plugins (Examples.start ".txt")).1
  = ["notes.txt"].
Proof.
  apply (no_loader_raises_import_error Examples.two_plugins (Examples.start ".txt")
           [] "/app/Plugins/notes.txt" []).
  - vm_compute. reflexivity.
  - constructor.
  - vm_compute. reflexivity.
  - vm_compute. reflexivity.
Defined.

(** X9: a candidate that was listed and is gone when it is loaded ends the
    call with the not-found error of the loader; its message gives the
    resolved path and so contains the name of the file. *)
Theorem vanished_candidate_raises_not_found
    (w : world) (p : process) (pre : list string) (x : string) (post : list string) :
  candidates w (self p) = pre ++ x :: post ->
  Forall (fun y => loads_ok w (self p) y = true) pre ->
  path_exists w (joinpath (plugin_dir (self p)) (os_path_split_tail x)) = false ->
  (findcandidate_files w p).2
  = Raise (Exn FileNotFoundError
             ("No file found at location "
              +:+ joinpath (plugin_dir (self p)) (os_path_split_tail x))) /\
  Str.contains (os_path_split_tail x)
    ("No file found at location "
     +:+ joinpath (plugin_dir (self p)) (os_path_split_tail x)) = true.
Proof.
  intros Hc Hpre Hgone.
  assert (load_entry w (self p) (os_path_split_tail x)
          = Raise (Exn FileNotFoundError
                     ("No file found at location "
                      +:+ joinpath (plugin_dir (self p)) (os_path_split_tail x))))
    as Hx.
  { unfold load_entry, get_installed_config. by rewrite Hgone. }
  rewrite (first_failure_outcome w p pre x post Hc Hpre _ Hx).
  split; [reflexivity|].
  apply (handled_errors_name_file w (self p) _ _ Hx). by left.
Qed.

(** [gone.py] of [Examples.deleted_file]. *)
Lemma vanished_candidate_raises_not_found_witness :
  (findcandidate_files Examples.deleted_file (Examples.start ".py")).2
  = Raise (Exn FileNotFoundError "No file found at location /app/Plugins/gone.py") /\
  Str.contains "gone.py" "No file found at location /app/Plugins/gone.py" = true.
Proof.
  apply (vanished_candidate_raises_not_found Examples.deleted_file (Examples.start ".py")
           ["/app/Plugins/a.py"] "/app/Plugins/gone.py" ["/app/Plugins/c.py"]).
  - vm_compute. reflexivity.
  - repeat constructor.
  - vm_compute. reflexivity.
Defined.



(** X14: a call that raised, repeated on an unchanged directory, raises the
    same error at the same candidate and leaves the catalog and the list of
    candidates as the first call left them. *)
Theorem failed_discovery_repeats (w : world) (p : process) (e : exn) :
  (findcandidate_files w p).2 = Raise e ->
  (findcandidate_files w (findcandidate_files w p).1).2 = Raise e /\
  catalog (self (findcandidate_files w (findcandidate_files w p).1).1)
  = catalog (self (findcandidate_files w p).1) /\
  candidate_files (self (findcandidate_files w (findcandidate_files w p).1).1)
  = candidate_files (self (findcandidate_files w p).1).
Proof.
  intros Hr.
  destruct (findcandidate_files_cases w p)
    as [[Hok Heq]|(pre & x & post & e0 & Hc & Hpre & Hx & Heq)];
    rewrite Heq in *; [discriminate|].
  cbn in Hr. inversion Hr as [He]. cbn [fst].
  set (p1 := settled (entered p) (pre ++ [x])
               (update_all (committed w (self p) pre) (catalog (self p)))
               (loads p ++ map os_path_split_tail (pre ++ [x]))).
  assert (findcandidate_files w p1
          = (settled (entered p1) (pre ++ [x])
               (update_all (committed w (self p1) pre) (catalog (self p1)))
               (loads p1 ++ map os_path_split_tail (pre ++ [x])),
             Raise (reraise (os_path_split_tail x) e0))) as Heq1.
  { apply (first_failure_outcome w p1 pre x post).
    - exact Hc.
    - eapply Forall_impl; [exact Hpre|]. intros y Hy.
      by rewrite (loads_ok_dir w _ (self p)).
    - by rewrite (load_entry_dir w _ (self p)). }
  rewrite Heq1. cbn.
  rewrite (committed_dir w _ (self p)) by reflexivity.
  by rewrite update_all_idemp.
Qed.

(** The call in [Examples.value_error], twice. *)
Lemma failed_discovery_repeats_witness :
  (findcandidate_files Examples.value_error
     (findcandidate_files Examples.value_error (Examples.start ".py")).1).2
  = Raise (Exn (OtherError "ValueError") "boom") /\
  catalog (self (findcandidate_files Examples.value_error
                   (findcandidate_files Examples.value_error (Examples.start ".py")).1).1)
  = catalog (self (findcandidate_files Examples.value_error (Examples.start ".py")).1) /\
  candidate_files
    (self (findcandidate_files Examples.value_error
             (findcandidate_files Examples.value_error (Examples.start ".py")).1).1)
  = candidate_files
      (self (findcandidate_files Examples.value_error (Examples.start ".py")).1).
Proof.
  apply (failed_discovery_repeats Examples.value_error (Examples.start ".py")).
  vm_compute. reflexivity.
Defined.

(** ** From discovery to the queries *)

Section Queries.

Variable w : world.

(** The entry under the identifier of a candidate that no later candidate
    shares, after a call that returned. *)
Lemma last_candidate_entry (p : process) (pre : list string) (x : string)
    (post : list string) :
  (findcandidate_files w p).2 = Ok tt ->
  candidates w (self p) = pre ++ x :: post ->
  identifier x ∉ map identifier post ->
  exists e,
    load_entry w (self p) (os_path_split_tail x) = Ok e /\
    catalog (self (findcandidate_files w p).1) !! identifier x = Some e.
Proof.
  intros Hret Hc Hlast.
  destruct (findcandidate_files_cases w p)
    as [[Hok Heq]|(pre' & x' & post' & e' & _ & _ & _ & Heq)];
    rewrite Heq in *; [|discriminate].
  rewrite Hc in *. cbn.
  apply Forall_app in Hok as [_ Hok]. apply Forall_cons in Hok as [Hx Hpost].
  apply loads_ok_entry in Hx as [e He].
  exists e. split; [exact He|].
  rewrite committed_app, (committed_cons_ok w (self p) x post e He).
  apply update_all_lookup_last.
  by rewrite (committed_all_ok w (self p) post Hpost).
Qed.

(** The recorded candidates are a prefix of the candidates, and they are
    what the loader was handed. *)
Lemma recorded_prefix (p : process) :
  exists rest,
    candidates w (self p)
    = candidate_files (self (findcandidate_files w p).1) ++ rest /\
    loads (findcandidate_files w p).1
    = loads p ++ map os_path_split_tail
                     (candidate_files (self (findcandidate_files w p).1)).
Proof.
  destruct (findcandidate_files_shape w p)
    as (ok & rest & -> & _ & [(-> & Hc & _)|(x & post & e & -> & Hc & _ & _)]); cbn.
  - exists []. by rewrite !app_nil_r.
  - exists post. by rewrite <- app_assoc.
Qed.

End Queries.

(** X11: after a call that returned, [get] on the identifier of a candidate
    that no later candidate shares gives, for a name that introspection of
    the module loaded from that candidate listed, the value listed with it
    (the last one, should the name be listed twice), and [has] is true; for
    a name that introspection did not list, [get] gives the default and
    [has] is false. *)
Theorem get_returns_introspected_value
    (w : world) (p : process) (pre : list string) (x : string) (post : list string)
    (ms : list (string * pyobj)) (n : string) (d : pyobj) :
  (findcandidate_files w p).2 = Ok tt ->
  candidates w (self p) = pre ++ x :: post ->
  identifier x ∉ map identifier post ->
  getmembers w (Module_ (os_path_split_tail x)
                  (joinpath (plugin_dir (self p)) (os_path_split_tail x))) = Ok ms ->
  (forall ms1 v ms2, ms = ms1 ++ (n, v) :: ms2 -> n ∉ ms2.*1 ->
     has (self (findcandidate_files w p).1) (identifier x) n = Some true /\
     get (self (findcandidate_files w p).1) (identifier x) n d = Ok v) /\
  (n ∉ ms.*1 ->
     has (self (findcandidate_files w p).1) (identifier x) n = Some false /\
     get (self (findcandidate_files w p).1) (identifier x) n d = Ok d).
Proof.
  intros Hret Hc Hlast Hms.
  destruct (last_candidate_entry w p pre x post Hret Hc Hlast) as (e & He & Hlook).
  apply load_entry_Ok in He as (Hcfg & ms' & Hms' & Hattr).
  apply get_installed_config_Ok in Hcfg as [Hh _].
  rewrite Hh, Hms in Hms'. inversion Hms'; subst ms'.
  unfold get, has, getitem. rewrite Hlook. cbn. rewrite Hattr.
  split.
  - intros ms1 v ms2 -> Hn.
    assert (dict (ms1 ++ (n, v) :: ms2) !! n = Some v) as Hv
      by (by apply update_all_lookup_last).
    rewrite bool_decide_eq_true_2 by (apply elem_of_dom; eauto).
    cbn. by rewrite Hv.
  - intros Hn. by rewrite bool_decide_eq_false_2 by (by rewrite dict_dom).
Qed.

(** [VALUE] and [missing] in [alpha.py] of [Examples.two_plugins]. *)
Lemma get_returns_introspected_value_witness :
  get (self MoreExamples.discovered) "alpha" "VALUE" PyNone = Ok (PyInt 42) /\
  has (self MoreExamples.discovered) "alpha" "missing" = Some false /\
  get (self MoreExamples.discovered) "alpha" "missing" (PyStr "fallback")
  = Ok (PyStr "fallback").
Proof.
  destruct (get_returns_introspected_value Examples.two_plugins (Examples.start ".py")
              [] "/app/Plugins/alpha.py" ["/app/Plugins/beta.py"]
              (Examples.module_members "alpha.py"
                 [("VALUE", PyInt 42); ("greet", PyOpaque "<function greet>")])
              "VALUE" PyNone) as [Hin _].
  { vm_compute. reflexivity. }
  { vm_compute. reflexivity. }
  { rewrite list_elem_of_In. vm_compute. intuition discriminate. }
  { vm_compute. reflexivity. }
  destruct (get_returns_introspected_value Examples.two_plugins (Examples.start ".py")
              [] "/app/Plugins/alpha.py" ["/app/Plugins/beta.py"]
              (Examples.module_members "alpha.py"
                 [("VALUE", PyInt 42); ("greet", PyOpaque "<function greet>")])
              "missing" (PyStr "fallback")) as [_ Hout].
  { vm_compute. reflexivity. }
  { vm_compute. reflexivity. }
  { rewrite list_elem_of_In. vm_compute. intuition discriminate. }
  { vm_compute. reflexivity. }
  split.
  - apply (Hin [] (PyInt 42)
             (("greet", PyOpaque "<function greet>") :: Examples.module_members "alpha.py" [])).
    + reflexivity.
    + rewrite list_elem_of_In. vm_compute. intuition discriminate.
  - apply Hout. rewrite list_elem_of_In. vm_compute. intuition discriminate.
Defined.

(** X13: the three queries agree on whether an identifier is known:
    [get_plugin] gives [None] exactly when [has] does.  An answer of [get]
    that differs from the default shows that [has] is true, and when [has]
    is true the answer of [get] does not depend on the default. *)
Theorem queries_agree (m : PlugInMgr) (id attributeName : string) (d : pyobj) :
  (get_plugin m id = None <-> has m id attributeName = None) /\
  (forall v, get m id attributeName d = Ok v -> v <> d ->
             has m id attributeName = Some true) /\
  (has m id attributeName = Some true ->
   forall d', get m id attributeName d' = get m id attributeName d).
Proof.
  unfold get_plugin, get, has.
  destruct (catalog m !! id) as [e|]; cbn.
  - split; [split; discriminate|].
    destruct (bool_decide (attributeName ∈ dom (attributes e))); cbn.
    + by split.
    + split; [|discriminate]. intros v Hv Hne. by inversion Hv.
  - split; [done|]. split; [|discriminate].
    intros v Hv Hne. by inversion Hv.
Qed.

(** X15: with a literal extension and plain entry names, the files a call
    hands to the loader, whether it returns or raises, are entries of the
    directory whose names end with the extension, in the order of the
    listing and without gaps; the recorded candidates are their paths. *)
Theorem loader_only_sees_matching_files (w : world) (p : process) :
  literal_ext (plug_ext (self p)) = true ->
  Forall (fun n => Str.mem sep n = false) (os_scandir w (plugin_dir (self p))) ->
  exists new rest,
    loads (findcandidate_files w p).1 = loads p ++ new /\
    matching w (self p) = new ++ rest /\
    candidate_files (self (findcandidate_files w p).1)
    = map (joinpath (plugin_dir (self p))) new /\
    Forall (fun f => f ∈ os_scandir w (plugin_dir (self p)) /\
                     Str.endswith (plug_ext (self p)) f = true) new.
Proof.
  intros Hlit Hplain.
  destruct (recorded_prefix w p) as (rest0 & Hc & Hl).
  unfold candidates in Hc. rewrite (glob_matching w (self p) Hlit) in Hc.
  apply map_eq_app in Hc as (new & rest & Hm & Hnew & _).
  assert (Forall (fun f => f ∈ os_scandir w (plugin_dir (self p)) /\
                           Str.endswith (plug_ext (self p)) f = true) new) as Hall.
  { apply Forall_forall. intros f Hf. apply elem_of_List_filter.
    fold (matching w (self p)). rewrite Hm. apply elem_of_app. by left. }
  exists new, rest. split; [|by repeat split].
  rewrite Hl, <- Hnew. f_equal.
  clear Hnew Hm Hl. induction Hall as [|f new [Hf _] _ IH]; [reflexivity|].
  simpl. rewrite IH. f_equal. apply split_tail_joinpath.
  by apply (proj1 (Forall_forall _ _) Hplain).
Qed.

(** Discovery in [Examples.two_plugins]: [notes.txt] is not loaded. *)
Lemma loader_only_sees_matching_files_witness :
  exists new rest,
    loads (findcandidate_files Examples.two_plugins (Examples.start ".py")).1
    = loads (Examples.start ".py") ++ new /\
    matching Examples.two_plugins (self (Examples.start ".py")) = new ++ rest /\
    candidate_files (self (findcandidate_files Examples.two_plugins (Examples.start ".py")).1)
    = map (joinpath (plugin_dir (self (Examples.start ".py")))) new /\
    Forall (fun f => f ∈ os_scandir Examples.two_plugins
                           (plugin_dir (self (Examples.start ".py"))) /\
                     Str.endswith (plug_ext (self (Examples.start ".py"))) f = true) new.
Proof.
  apply (loader_only_sees_matching_files Examples.two_plugins (Examples.start ".py")).
  - reflexivity.
  - vm_compute. repeat constructor.
Defined.
